(** * Lumina RAG: the PWA shell

    A shallow embedding of the three stateful pieces of the client:

    - [ServiceWorker]: the cache lifecycle manager of [public/sw.js]
      (install, activate, fetch interception, control messages);
    - [PWAInstall]: the install-flow controller, the [usePWAInstall] hook;
    - [DataManagement]: the file list and indexing state, the
      [useDataManagement] hook.

    Promise chains are written in a small state-and-rejection monad; React
    state is a record and every handler is a function on it that also
    returns the console lines and external calls it made. *)

From Stdlib Require Import String Ascii List Bool ZArith Lia.
From stdpp Require Import base option gmap strings.
Import ListNotations.

Local Open Scope string_scope.
Local Open Scope list_scope.

(** ** JavaScript string helpers *)

(** [s.startsWith(p)] *)
Definition startsWith (s p : string) : bool := String.prefix p s.

(** [s.includes(p)]: [p] occurs somewhere in [s]. *)
Fixpoint includes (s p : string) : bool :=
  String.prefix p s ||
  match s with
  | EmptyString => false
  | String _ s' => includes s' p
  end.

(** [a !== b] on strings *)
Definition str_neq (a b : string) : bool := negb (String.eqb a b).

(** * The service worker *)
Module ServiceWorker.

(** ** Platform data *)

(** [response.type] *)
Inductive ResponseType :=
| type_basic | type_cors | type_default | type_error | type_opaque | type_opaqueredirect.

Definition ResponseType_eqb (a b : ResponseType) : bool :=
  match a, b with
  | type_basic, type_basic | type_cors, type_cors | type_default, type_default
  | type_error, type_error | type_opaque, type_opaque
  | type_opaqueredirect, type_opaqueredirect => true
  | _, _ => false
  end.

Record Response := mkResponse {
  status : Z;
  statusText : string;
  type : ResponseType;
  headers : list (string * string);
  body : string
}.

(** A request as the handlers see it.  [url] is the serialised absolute URL
    (the cache key); [url_origin] and [url_pathname] are the components that
    [new URL(request.url)] exposes. *)
Record Request := mkRequest {
  url : string;
  url_origin : string;
  url_pathname : string;
  method : string;
  destination : string
}.

(** One cache generation: request key to stored response. *)
Abbreviation Cache := (gmap string Response).

(** [caches]: the named generations, in creation order ([caches.keys()] and
    [caches.match] both walk them in that order). *)
Definition CacheStorage := list (string * Cache).

Inductive ConsoleLine :=
| console_log (msg : string)
| console_log_with (msg : string) (arg : string)
| console_error (msg : string) (reason : string).

(** What the worker can change. *)
Record World := mkWorld {
  caches : CacheStorage;
  console : list ConsoleLine;        (* oldest first *)
  fetched : list string;             (* URLs handed to the network, oldest first *)
  skipWaiting_calls : nat;
  clients_claimed : bool
}.

Definition set_caches (f : CacheStorage -> CacheStorage) (w : World) : World :=
  {| caches := f (caches w); console := console w; fetched := fetched w;
     skipWaiting_calls := skipWaiting_calls w; clients_claimed := clients_claimed w |}.

Definition add_console (l : ConsoleLine) (w : World) : World :=
  {| caches := caches w; console := console w ++ [l]; fetched := fetched w;
     skipWaiting_calls := skipWaiting_calls w; clients_claimed := clients_claimed w |}.

Definition add_fetched (us : list string) (w : World) : World :=
  {| caches := caches w; console := console w; fetched := fetched w ++ us;
     skipWaiting_calls := skipWaiting_calls w; clients_claimed := clients_claimed w |}.

Definition incr_skipWaiting (w : World) : World :=
  {| caches := caches w; console := console w; fetched := fetched w;
     skipWaiting_calls := S (skipWaiting_calls w); clients_claimed := clients_claimed w |}.

Definition set_claimed (w : World) : World :=
  {| caches := caches w; console := console w; fetched := fetched w;
     skipWaiting_calls := skipWaiting_calls w; clients_claimed := true |}.

(** ** Promises *)

Inductive Settled (A : Type) :=
| Fulfilled (a : A)
| Rejected (reason : string).
Arguments Fulfilled {A} a.
Arguments Rejected {A} reason.

(** A promise chain run to settlement: it may change the world on the way
    and the changes made before a rejection stay. *)
Definition Promise (A : Type) : Type := World -> Settled A * World.

Definition resolve {A} (a : A) : Promise A := fun w => (Fulfilled a, w).
Definition reject {A} (reason : string) : Promise A := fun w => (Rejected reason, w).

(** [p.then(k)] *)
Definition then_ {A B} (p : Promise A) (k : A -> Promise B) : Promise B :=
  fun w =>
    match p w with
    | (Fulfilled a, w') => k a w'
    | (Rejected r, w') => (Rejected r, w')
    end.

(** [p.catch(h)] *)
Definition catch {A} (p : Promise A) (h : string -> Promise A) : Promise A :=
  fun w =>
    match p w with
    | (Fulfilled a, w') => (Fulfilled a, w')
    | (Rejected r, w') => h r w'
    end.

Declare Scope promise_scope.
Delimit Scope promise_scope with promise.
Notation "x <- p ;; k" := (then_ p (fun x => k))
  (at level 100, p at next level, right associativity) : promise_scope.
Notation "p ;;; k" := (then_ p (fun _ => k))
  (at level 100, right associativity) : promise_scope.

Definition effect (f : World -> World) : Promise unit := fun w => (Fulfilled tt, f w).
Definition log (l : ConsoleLine) : Promise unit := effect (add_console l).

(** A promise started and not returned ("fire and forget"): its effects
    happen, its outcome is seen by nobody. *)
Definition detached {A} (p : Promise A) : Promise unit :=
  fun w => (Fulfilled tt, snd (p w)).

(** ** The Cache API, as far as the worker uses it

    [fetch], [caches] and [Cache] are browser primitives; their behaviour
    below follows the Cache interface of the Service Worker standard.  A
    request is matched by its method and its URL ([Vary] headers, fragments
    and match options play no part in this worker). *)

(** The network, as the worker sees it during one handler: [None] is a fetch
    that rejects (offline, DNS failure, ...). *)
Definition Network := string -> string -> option Response.   (* method, URL *)

Definition fetch (net : Network) (meth key : string) : Promise Response :=
  fun w =>
    match net meth key with
    | Some r => (Fulfilled r, add_fetched [key] w)
    | None => (Rejected "TypeError: Failed to fetch", add_fetched [key] w)
    end.

(** [cache.match]: only GET requests are ever matched. *)
Definition Cache_match (c : Cache) (meth key : string) : option Response :=
  if String.eqb meth "GET" then c !! key else None.

(** [caches.match]: the first generation, in creation order, with a match. *)
Fixpoint CacheStorage_match (cs : CacheStorage) (meth key : string) : option Response :=
  match cs with
  | [] => None
  | (_, c) :: cs' =>
      match Cache_match c meth key with
      | Some r => Some r
      | None => CacheStorage_match cs' meth key
      end
  end.

Definition CacheStorage_keys (cs : CacheStorage) : list string := map fst cs.

Fixpoint CacheStorage_get (cs : CacheStorage) (name : string) : option Cache :=
  match cs with
  | [] => None
  | (n, c) :: cs' => if String.eqb n name then Some c else CacheStorage_get cs' name
  end.

(** [caches.open]: creates the generation when it does not exist. *)
Definition CacheStorage_open (cs : CacheStorage) (name : string) : CacheStorage :=
  match CacheStorage_get cs name with
  | Some _ => cs
  | None => cs ++ [(name, ∅)]
  end.

(** [caches.delete] *)
Definition CacheStorage_delete (cs : CacheStorage) (name : string) : CacheStorage :=
  List.filter (fun nc => str_neq (fst nc) name) cs.

(** Writes through an open handle land in the generation of that name. *)
Fixpoint CacheStorage_update (cs : CacheStorage) (name : string) (f : Cache -> Cache)
  : CacheStorage :=
  match cs with
  | [] => []
  | (n, c) :: cs' =>
      if String.eqb n name then (n, f c) :: cs'
      else (n, c) :: CacheStorage_update cs' name f
  end.

Definition caches_match (meth key : string) : Promise (option Response) :=
  fun w => (Fulfilled (CacheStorage_match (caches w) meth key), w).

Definition caches_keys : Promise (list string) :=
  fun w => (Fulfilled (CacheStorage_keys (caches w)), w).

(** The handle of an open cache is its name. *)
Definition caches_open (name : string) : Promise string :=
  fun w => (Fulfilled name, set_caches (fun cs => CacheStorage_open cs name) w).

Definition caches_delete (name : string) : Promise bool :=
  fun w => (Fulfilled (bool_decide (is_Some (CacheStorage_get (caches w) name))),
            set_caches (fun cs => CacheStorage_delete cs name) w).

(** [cache.put]: rejects for anything but GET, stores nothing then. *)
Definition Cache_put (cache meth key : string) (r : Response) : Promise unit :=
  if String.eqb meth "GET"
  then effect (set_caches (fun cs => CacheStorage_update cs cache (<[key := r]>)))
  else reject "TypeError".

(** [cache.addAll] stores a response only when [response.ok] holds and the
    status is not 206. *)
Definition addAll_storable (r : Response) : bool :=
  (200 <=? status r)%Z && (status r <=? 299)%Z && negb (status r =? 206)%Z.

(** The fetches of one [addAll]: all of them, or nothing. *)
Fixpoint fetch_all (net : Network) (keys : list string) : option (list (string * Response)) :=
  match keys with
  | [] => Some []
  | k :: ks =>
      match net "GET" k with
      | Some r =>
          if addAll_storable r
          then match fetch_all net ks with
               | Some rs => Some ((k, r) :: rs)
               | None => None
               end
          else None
      | None => None
      end
  end.

Definition put_all (entries : list (string * Response)) (c : Cache) : Cache :=
  fold_left (fun acc kr => <[fst kr := snd kr]> acc) entries c.

(** [cache.addAll]: every request is fetched; the batch of puts is applied
    only when every fetch gave a storable response and no two requests share
    a key, and the promise rejects otherwise with the cache as it was. *)
Definition Cache_addAll (net : Network) (cache : string) (keys : list string) : Promise unit :=
  fun w =>
    let w1 := add_fetched keys w in
    match fetch_all net keys with
    | None => (Rejected "TypeError: Failed to fetch", w1)
    | Some entries =>
        if bool_decide (NoDup keys)
        then (Fulfilled tt, set_caches (fun cs => CacheStorage_update cs cache (put_all entries)) w1)
        else (Rejected "InvalidStateError", w1)
    end.

Definition skipWaiting : Promise unit := effect incr_skipWaiting.
Definition clients_claim : Promise unit := effect set_claimed.

(** ** sw.js *)

Definition CACHE_NAME := "lumina-rag-v1".
Definition STATIC_CACHE_NAME := "lumina-rag-static-v1".
Definition DYNAMIC_CACHE_NAME := "lumina-rag-dynamic-v1".

Definition STATIC_ASSETS : list string :=
  [ "/"; "/index.html"; "/lumina.svg"; "/manifest.json";
    "/src/main.tsx"; "/src/App.tsx"; "/src/index.css" ].

Section Worker.

(** [location.origin] of the worker. *)
Variable location_origin : string.

(** The URL parser: the serialised absolute URL of a URL string given
    relative to the worker's location. *)
Variable absolute : string -> string.

Variable net : Network.

Local Open Scope promise_scope.

(** The promise the install listener hands to [event.waitUntil].  The
    requests are built with [{cache: 'reload'}], which only keeps the HTTP
    cache out of the fetch. *)
Definition install_waitUntil : Promise unit :=
  catch
    (cache <- caches_open STATIC_CACHE_NAME ;;
     (log (console_log "[Service Worker] Caching static assets") ;;;
      Cache_addAll net cache (map absolute STATIC_ASSETS)) ;;;
     log (console_log "[Service Worker] Static assets cached") ;;;
     skipWaiting)
    (fun error =>
       log (console_error "[Service Worker] Failed to cache static assets:" error)).

Definition install_listener : Promise unit :=
  log (console_log "[Service Worker] Installing...") ;;;
  install_waitUntil.

(** The filter of the activate listener. *)
Definition stale (cacheName : string) : bool :=
  str_neq cacheName STATIC_CACHE_NAME &&
  str_neq cacheName DYNAMIC_CACHE_NAME &&
  startsWith cacheName "lumina-rag-".

(** [Promise.all(names.map(...))] *)
Fixpoint delete_each (names : list string) : Promise unit :=
  match names with
  | [] => resolve tt
  | cacheName :: rest =>
      log (console_log_with "[Service Worker] Deleting old cache:" cacheName) ;;;
      caches_delete cacheName ;;;
      delete_each rest
  end.

Definition activate_waitUntil : Promise unit :=
  cacheNames <- caches_keys ;;
  delete_each (List.filter stale cacheNames) ;;;
  log (console_log "[Service Worker] Activated") ;;;
  clients_claim.

Definition activate_listener : Promise unit :=
  log (console_log "[Service Worker] Activating...") ;;;
  activate_waitUntil.

(** The response made up when the network is down. *)
Definition offline_response : Response :=
  {| status := 503;
     statusText := "Service Unavailable";
     type := type_default;
     headers := [("Content-Type", "text/plain")];
     body := "Offline - content not available" |}.

(** The paths the fetch listener leaves alone. *)
Definition skipped (request : Request) : bool :=
  includes (url_pathname request) "/workers/" ||
  includes (url_pathname request) "/node_modules/" ||
  startsWith (url request) "chrome-extension://" ||
  startsWith (url request) "moz-extension://".

(** What [event.respondWith] receives; [Fulfilled None] is a promise that
    fulfils with [undefined]. *)
Definition fetch_respondWith (request : Request) : Promise (option Response) :=
  cachedResponse <- caches_match (method request) (url request) ;;
  match cachedResponse with
  | Some r => resolve (Some r)
  | None =>
      catch
        (response <- fetch net (method request) (url request) ;;
         if negb (status response =? 200)%Z
            || negb (ResponseType_eqb (type response) type_basic)
         then resolve (Some response)
         else
           detached (cache <- caches_open DYNAMIC_CACHE_NAME ;;
                     Cache_put cache (method request) (url request) response) ;;;
           resolve (Some response))
        (fun _ =>
           if String.eqb (destination request) "document"
           then caches_match "GET" (absolute "/index.html")
           else resolve (Some offline_response))
  end.

(** The fetch listener: [None] when it returns without [respondWith], so the
    request goes to the network untouched. *)
Definition fetch_listener (request : Request) : option (Promise (option Response)) :=
  if str_neq (url_origin request) location_origin then None
  else if skipped request then None
  else Some (fetch_respondWith request).

(** [event.data] of a message: [None] for a falsy payload. *)
Record MessageData := mkMessage {
  msg_type : string;
  urls : list string
}.

(** The message listener; the second component of the result is the outcome
    of the promise given to [event.waitUntil], when there is one. *)
Definition message_listener (data : option MessageData) (w : World)
  : World * option (Settled unit) :=
  let w1 :=
    match data with
    | Some d => if String.eqb (msg_type d) "SKIP_WAITING" then snd (skipWaiting w) else w
    | None => w
    end in
  match data with
  | Some d =>
      if String.eqb (msg_type d) "CACHE_URLS"
      then
        let '(r, w2) :=
          (cache <- caches_open DYNAMIC_CACHE_NAME ;;
           Cache_addAll net cache (map absolute (urls d))) w1 in
        (w2, Some r)
      else (w1, None)
  | None => (w1, None)
  end.

End Worker.

(** The same request intercepted once for every entry of [nets], the state
    of the network at each interception; the answers come oldest first. *)
Fixpoint intercept_repeatedly (absolute : string -> string) (nets : list Network)
    (request : Request) (w : World) : list (Settled (option Response)) * World :=
  match nets with
  | [] => ([], w)
  | net :: rest =>
      let '(answer, w1) := fetch_respondWith absolute net request w in
      let '(answers, w2) := intercept_repeatedly absolute rest request w1 in
      (answer :: answers, w2)
  end.

End ServiceWorker.

(** * The install-flow controller ([usePWAInstall]) *)
Module PWAInstall.

(** [choiceResult.outcome] *)
Inductive Outcome := accepted | dismissed.

(** The event of [beforeinstallprompt].  [has_prompt] says whether the event
    object carries a [prompt] method. *)
Record BeforeInstallPromptEvent := mkEvent {
  event_id : nat;
  has_prompt : bool
}.

(** What happens when a captured event is replayed: [prompt()] may throw,
    [userChoice] may reject, or the user chooses. *)
Inductive PromptRun :=
| prompt_throws (error : string)
| userChoice_rejects (error : string)
| userChoice_resolves (outcome : Outcome) (platform : string).

(** The signals [checkInstalled] reads. *)
Record Signals := mkSignals {
  display_mode_standalone : bool;        (* matchMedia('(display-mode: standalone)').matches *)
  navigator_standalone : option bool;    (* navigator.standalone, [None] when undefined *)
  referrer : string                      (* document.referrer *)
}.

(** The four [useState] cells. *)
Record State := mkState {
  canInstall : bool;
  isInstalled : bool;
  isPrompting : bool;
  deferredPrompt : option BeforeInstallPromptEvent
}.

Definition initial : State :=
  {| canInstall := false; isInstalled := false; isPrompting := false; deferredPrompt := None |}.

Definition setCanInstall (b : bool) (s : State) : State :=
  {| canInstall := b; isInstalled := isInstalled s;
     isPrompting := isPrompting s; deferredPrompt := deferredPrompt s |}.

Definition setIsInstalled (b : bool) (s : State) : State :=
  {| canInstall := canInstall s; isInstalled := b;
     isPrompting := isPrompting s; deferredPrompt := deferredPrompt s |}.

Definition setIsPrompting (b : bool) (s : State) : State :=
  {| canInstall := canInstall s; isInstalled := isInstalled s;
     isPrompting := b; deferredPrompt := deferredPrompt s |}.

Definition setDeferredPrompt (p : option BeforeInstallPromptEvent) (s : State) : State :=
  {| canInstall := canInstall s; isInstalled := isInstalled s;
     isPrompting := isPrompting s; deferredPrompt := p |}.

(** What a handler does besides changing the state. *)
Inductive Effect :=
| log (msg : string)
| warn (msg : string)
| error (msg : string) (err : string)
| preventDefault (e : BeforeInstallPromptEvent)
| prompt (e : BeforeInstallPromptEvent).

(** The disjunction computed by [checkInstalled]: [a || b || c] with [b]
    possibly undefined. *)
Definition isStandalone (env : Signals) : bool :=
  if display_mode_standalone env then true
  else match navigator_standalone env with
       | Some true => true
       | _ => includes (referrer env) "android-app://"
       end.

Definition checkInstalled (env : Signals) (s : State) : State :=
  setIsInstalled (isStandalone env) s.

Definition handleBeforeInstallPrompt (e : BeforeInstallPromptEvent) (s : State)
  : State * list Effect :=
  if has_prompt e
  then (setCanInstall true (setDeferredPrompt (Some e) s),
        [ preventDefault e;
          log "[PWA Install] Install prompt available - install button will appear in header" ])
  else (s, []).

Definition handleAppInstalled (s : State) : State * list Effect :=
  (setDeferredPrompt None (setCanInstall false (setIsInstalled true s)),
   [ log "[PWA Install] App was installed" ]).

(** The period of [setInterval(checkInstalled, 1000)], in milliseconds. *)
Definition POLL_INTERVAL : nat := 1000.

(** What the browser can deliver to the mounted hook. *)
Inductive BrowserEvent :=
| beforeinstallprompt (e : BeforeInstallPromptEvent)
| appinstalled
| interval (env : Signals).

Definition deliver (ev : BrowserEvent) (s : State) : State * list Effect :=
  match ev with
  | beforeinstallprompt e => handleBeforeInstallPrompt e s
  | appinstalled => handleAppInstalled s
  | interval env => (checkInstalled env s, [])
  end.

Fixpoint deliver_all (evs : list BrowserEvent) (s : State) : State * list Effect :=
  match evs with
  | [] => (s, [])
  | ev :: rest =>
      let '(s1, eff1) := deliver ev s in
      let '(s2, eff2) := deliver_all rest s1 in
      (s2, eff1 ++ eff2)
  end.

(** The effect body at mount: the first [checkInstalled]. *)
Definition mount (env : Signals) : State := checkInstalled env initial.

(** The hook left to its timer alone, [t] milliseconds after mount:
    [checkInstalled] has run at mount and at every multiple of
    [POLL_INTERVAL] since.  [env t] are the signals at time [t]. *)
Fixpoint clock (env : nat -> Signals) (t : nat) : State :=
  match t with
  | O => mount (env 0)
  | S t' =>
      let s := clock env t' in
      if (S t' mod POLL_INTERVAL =? 0)%nat then checkInstalled (env (S t')) s else s
  end.

(** *** promptInstall *)

(** The [try] block once [prompt()] has been called on the captured event:
    the two awaits and what follows them.  The result carries the error when
    the block throws. *)
Definition promptInstall_try (run : PromptRun) (s : State)
  : State * list Effect * option string :=
  match run with
  | prompt_throws err => (s, [], Some err)
  | userChoice_rejects err => (s, [], Some err)
  | userChoice_resolves outcome _ =>
      let '(s1, eff) :=
        match outcome with
        | accepted =>
            (setIsInstalled true s, [log "[PWA Install] User accepted the install prompt"])
        | dismissed =>
            (s, [log "[PWA Install] User dismissed the install prompt"])
        end in
      (setCanInstall false (setDeferredPrompt None s1), eff, None)
  end.

Definition promptInstall_catch (err : string) (s : State) : State * list Effect :=
  (setCanInstall false (setDeferredPrompt None s),
   [error "[PWA Install] Error showing install prompt:" err]).

Definition promptInstall_finally (s : State) : State := setIsPrompting false s.

(** The function [promptInstall] that a render returns.  It closes over
    that render's [deferredPrompt], here [captured]; the setters it calls act
    on the state of the moment, [s].  The browser events of [during] arrive
    while the native dialog is open, that is between the call of [prompt()]
    and the settlement of the awaits. *)
Definition promptInstall_closure (captured : option BeforeInstallPromptEvent)
    (during : list BrowserEvent) (run : PromptRun) (s : State)
  : State * list Effect :=
  match captured with
  | None => (s, [warn "[PWA Install] Install prompt not available"])
  | Some e =>
      let s0 := setIsPrompting true s in
      let '(s1, eff1) := deliver_all during s0 in
      let '(s2, eff2, thrown) := promptInstall_try run s1 in
      let '(s3, eff3) :=
        match thrown with
        | Some err => promptInstall_catch err s2
        | None => (s2, [])
        end in
      (promptInstall_finally s3, prompt e :: eff1 ++ eff2 ++ eff3)
  end.

(** [promptInstall] as the latest render returns it: the closure has seen
    the current [deferredPrompt]. *)
Definition promptInstall_during (during : list BrowserEvent) (run : PromptRun) (s : State)
  : State * list Effect :=
  promptInstall_closure (deferredPrompt s) during run s.

Definition promptInstall : PromptRun -> State -> State * list Effect :=
  promptInstall_during [].

(** Whether a list of effects shows the native dialog. *)
Definition prompts (effs : list Effect) : bool :=
  existsb (fun x => match x with prompt _ => true | _ => false end) effs.

(** *** The hook over time *)

(** What can happen to the mounted hook: the browser delivers an event, or
    the page calls the [promptInstall] of the latest render and the call runs
    to completion (with the events of [during] arriving meanwhile). *)
Inductive Action :=
| browser (ev : BrowserEvent)
| call_promptInstall (during : list BrowserEvent) (run : PromptRun).

Definition perform (a : Action) (s : State) : State * list Effect :=
  match a with
  | browser ev => deliver ev s
  | call_promptInstall during run => promptInstall_during during run s
  end.

Fixpoint perform_all (actions : list Action) (s : State) : State * list Effect :=
  match actions with
  | [] => (s, [])
  | a :: rest =>
      let '(s1, eff1) := perform a s in
      let '(s2, eff2) := perform_all rest s1 in
      (s2, eff1 ++ eff2)
  end.


End PWAInstall.

(** * The file list ([useDataManagement]) *)
Module DataManagement.

(** [Math.random()] draws [k / 2^53]; an id is kept as its numerator [k]. *)
Definition FileId := N.

(** [FileItem] of [../types]: [content] is optional. *)
Record FileItem := mkFileItem {
  name : string;
  id : FileId;
  content : option string
}.

(** An uploaded [File]: its name and what [file.text()] settles to, [None]
    when the read rejects. *)
Record File := mkFile {
  file_name : string;
  file_text : option string
}.

Record State := mkState {
  files : list FileItem;
  isGeneratingData : bool;
  isIndexing : bool;
  ragStatus : string
}.

Definition initial : State :=
  {| files := []; isGeneratingData := false; isIndexing := false; ragStatus := "Idle" |}.

Definition setFilesState (f : list FileItem -> list FileItem) (s : State) : State :=
  {| files := f (files s); isGeneratingData := isGeneratingData s;
     isIndexing := isIndexing s; ragStatus := ragStatus s |}.

Definition setIsIndexing (b : bool) (s : State) : State :=
  {| files := files s; isGeneratingData := isGeneratingData s;
     isIndexing := b; ragStatus := ragStatus s |}.

Definition setRagStatus (v : string) (s : State) : State :=
  {| files := files s; isGeneratingData := isGeneratingData s;
     isIndexing := isIndexing s; ragStatus := v |}.

Inductive Effect :=
| console_error (msg : string)
| call_ragIndexFunction (arg : list FileItem)
| setTimeout (ms : nat).

Definition addFile (file : FileItem) (s : State) : State :=
  setFilesState (fun prev => prev ++ [file]) s.

Definition removeFile (i : FileId) (s : State) : State :=
  setFilesState (fun prev => List.filter (fun f => negb (N.eqb (id f) i)) prev) s.

(** [handleFileUpload]; [fileId] is the draw of [Math.random()] and [s] the
    state when the read of the text settles ([addFile] appends to the list of
    that moment). *)
Definition handleFileUpload (fileId : FileId) (file : File) (s : State)
  : State * list Effect :=
  match file_text file with
  | Some text =>
      (addFile {| name := file_name file; id := fileId; content := Some text |} s, [])
  | None =>
      (addFile {| name := file_name file; id := fileId; content := None |} s,
       [console_error "Failed to read file:"])
  end.

(** The optional callback, by what its promise settles to on a given list:
    [true] resolves, [false] rejects. *)
Definition RagIndexFunction := list FileItem -> bool.

(** The function [indexDocuments] that a render returns; it closes over
    that render's [files], here [files_seen]. *)
Definition indexDocuments_closure (files_seen : list FileItem)
    (ragIndexFunction : option RagIndexFunction) (s : State)
  : State * list Effect :=
  if (length files_seen =? 0)%nat then (s, [])
  else
    let s1 := setRagStatus "Indexing..." (setIsIndexing true s) in
    let '(s2, eff) :=
      match ragIndexFunction with
      | Some f =>
          if f files_seen
          then (setRagStatus "Knowledge Base Ready" s1, [call_ragIndexFunction files_seen])
          else (setRagStatus "Indexing Failed" s1,
                [call_ragIndexFunction files_seen; console_error "Indexing failed:"])
      | None =>
          (setRagStatus "Knowledge Base Ready" s1, [setTimeout 1500])
      end in
    (setIsIndexing false s2, eff).

(** [indexDocuments] as the latest render returns it. *)
Definition indexDocuments (ragIndexFunction : option RagIndexFunction) (s : State)
  : State * list Effect :=
  indexDocuments_closure (files s) ragIndexFunction s.

(** [setFiles]: a new list, or a function of the previous one. *)
Definition setFiles (value : list FileItem + (list FileItem -> list FileItem)) (s : State)
  : State :=
  match value with
  | inr f => setFilesState (fun prev => f prev) s
  | inl v => setFilesState (fun _ => v) s
  end.

(** Several uploads, settled in the order of the list; each comes with the
    draw of its call. *)
Fixpoint upload_all (uploads : list (FileId * File)) (s : State) : State * list Effect :=
  match uploads with
  | [] => (s, [])
  | (fileId, file) :: rest =>
      let '(s1, eff1) := handleFileUpload fileId file s in
      let '(s2, eff2) := upload_all rest s1 in
      (s2, eff1 ++ eff2)
  end.

(** The entry an upload makes. *)
Definition entry_of (upload : FileId * File) : FileItem :=
  {| name := file_name (snd upload); id := fst upload; content := file_text (snd upload) |}.

End DataManagement.

(** * Registration utilities ([utils/serviceWorker.ts]) and [main.tsx] *)
Module ServiceWorkerUtils.

Abbreviation Settled := ServiceWorker.Settled.
Abbreviation Fulfilled := ServiceWorker.Fulfilled.
Abbreviation Rejected := ServiceWorker.Rejected.

(** A [ServiceWorkerRegistration], as the utilities read it. *)
Record Registration := mkRegistration {
  scope : string;
  waiting : bool;              (* [registration.waiting] is a worker, not null *)
  unregister : Settled bool    (* what [registration.unregister()] settles to *)
}.

(** [navigator.serviceWorker] *)
Record Container := mkContainer {
  register : string -> string -> Settled Registration;   (* script URL, scope *)
  ready : Settled Registration
}.

(** [navigator]: [None] when it has no [serviceWorker] property. *)
Definition Navigator := option Container.

Inductive Effect :=
| log (msg : string)
| log_with (msg : string) (arg : string)
| warn (msg : string)
| error (msg : string) (err : string)
| call_register (script : string) (scope : string)
| call_unregister
| addEventListener (target : string) (event : string).

(** An [async] function run to settlement, with what it did. *)
Definition Async (A : Type) : Type := Settled A * list Effect.

Definition ret {A} (a : A) : Async A := (Fulfilled a, []).

Definition bind {A B} (m : Async A) (k : A -> Async B) : Async B :=
  match m with
  | (ServiceWorker.Fulfilled a, eff) => let '(r, eff') := k a in (r, eff ++ eff')
  | (ServiceWorker.Rejected reason, eff) => (Rejected reason, eff)
  end.

Definition emit (x : Effect) : Async unit := (Fulfilled tt, [x]).

(** [await p] *)
Definition await {A} (p : Settled A) : Async A := (p, []).

(** [try { body } catch (error) { handler }], and [promise.catch(handler)]. *)
Definition try_catch {A} (body : Async A) (handler : string -> Async A) : Async A :=
  match body with
  | (ServiceWorker.Fulfilled a, eff) => (Fulfilled a, eff)
  | (ServiceWorker.Rejected reason, eff) => let '(r, eff') := handler reason in (r, eff ++ eff')
  end.

Declare Scope async_scope.
Delimit Scope async_scope with async.
Notation "x <~ m ;; k" := (bind m (fun x => k))
  (at level 100, m at next level, right associativity) : async_scope.
Notation "m ;;~ k" := (bind m (fun _ => k))
  (at level 100, right associativity) : async_scope.
Local Open Scope async_scope.

Definition isServiceWorkerSupported (navigator : Navigator) : bool :=
  match navigator with
  | Some _ => true
  | None => false
  end.

(** [navigator.serviceWorker.ready]; reading it throws when there is no
    [serviceWorker]. *)
Definition navigator_ready (navigator : Navigator) : Settled Registration :=
  match navigator with
  | Some container => ready container
  | None => Rejected "TypeError"
  end.

Definition navigator_register (navigator : Navigator) (script sc : string)
  : Settled Registration :=
  match navigator with
  | Some container => register container script sc
  | None => Rejected "TypeError"
  end.

Definition registerServiceWorker (navigator : Navigator) : Async unit :=
  if negb (isServiceWorkerSupported navigator)
  then
    emit (warn "[Service Worker] Service workers are not supported in this browser") ;;~
    ret tt
  else
    try_catch
      (registration <~ (emit (call_register "/sw.js" "/") ;;~
                        await (navigator_register navigator "/sw.js" "/")) ;;
       emit (log_with "[Service Worker] Registered successfully:" (scope registration)) ;;~
       emit (addEventListener "registration" "updatefound") ;;~
       emit (addEventListener "navigator.serviceWorker" "controllerchange"))
      (fun err => emit (error "[Service Worker] Registration failed:" err)).


Record ServiceWorkerRegistrationState := mkRegistrationState {
  isSupported : bool;
  isRegistered : bool;
  updateAvailable : bool;
  registration : option Registration
}.

Definition getServiceWorkerState (navigator : Navigator)
  : Async ServiceWorkerRegistrationState :=
  let supported := isServiceWorkerSupported navigator in
  if negb supported
  then ret {| isSupported := false; isRegistered := false;
              updateAvailable := false; registration := None |}
  else
    try_catch
      (reg <~ await (navigator_ready navigator) ;;
       ret {| isSupported := true; isRegistered := true;
              updateAvailable := waiting reg; registration := Some reg |})
      (fun err =>
         emit (error "[Service Worker] Error getting state:" err) ;;~
         ret {| isSupported := true; isRegistered := false;
                updateAvailable := false; registration := None |}).

(** [promptPWAInstall]: [event] is [None] for a falsy argument. *)
Definition promptPWAInstall (event : option PWAInstall.BeforeInstallPromptEvent)
    (run : PWAInstall.PromptRun) : Settled unit * list PWAInstall.Effect :=
  match event with
  | None =>
      (Fulfilled tt, [PWAInstall.warn "[PWA Install] Install prompt event not available"])
  | Some installEvent =>
      let '(eff, thrown) :=
        match run with
        | PWAInstall.prompt_throws err => ([], Some err)
        | PWAInstall.userChoice_rejects err => ([], Some err)
        | PWAInstall.userChoice_resolves PWAInstall.accepted _ =>
            ([PWAInstall.log "[PWA Install] User accepted the install prompt"], None)
        | PWAInstall.userChoice_resolves PWAInstall.dismissed _ =>
            ([PWAInstall.log "[PWA Install] User dismissed the install prompt"], None)
        end in
      (Fulfilled tt,
       PWAInstall.prompt installEvent :: eff ++
         match thrown with
         | Some err => [PWAInstall.error "[PWA Install] Error showing install prompt:" err]
         | None => []
         end)
  end.

(** The start of [main.tsx]: in a production build the worker is registered
    and a rejection of the registration is logged. *)
Definition main (PROD : bool) (navigator : Navigator) : Async unit :=
  if PROD
  then
    try_catch (registerServiceWorker navigator)
      (fun err => emit (error "[Main] Failed to register service worker:" err))
  else ret tt.


End ServiceWorkerUtils.

(** * Concrete runs used by the examples below *)
Module Scenarios.
Import ServiceWorker.

Definition site (u : string) : string := "https://lumina.test" +:+ u.

Definition page_200 : Response :=
  {| status := 200; statusText := "OK"; type := type_basic;
     headers := [("Content-Type", "text/html")]; body := "<!doctype html>" |}.

Definition fresh_world : World :=
  {| caches := []; console := []; fetched := [];
     skipWaiting_calls := 0; clients_claimed := false |}.

(** Every URL answers 200. *)
Definition net_online : Network := fun _ _ => Some page_200.

(** Every URL answers 200 except the icon, whose fetch rejects. *)
Definition net_icon_down : Network :=
  fun _ u => if String.eqb u (site "/lumina.svg") then None else Some page_200.

(** Nothing answers. *)
Definition net_offline : Network := fun _ _ => None.

(** Every URL answers 200 except [/b]. *)
Definition net_b_down : Network :=
  fun _ u => if String.eqb u (site "/b") then None else Some page_200.

(** A navigation to a page of the site. *)
Definition notes_navigation : Request :=
  {| url := site "/notes"; url_origin := "https://lumina.test";
     url_pathname := "/notes"; method := "GET"; destination := "document" |}.

(** The request for the root document. *)
Definition root_request : Request :=
  {| url := site "/"; url_origin := "https://lumina.test";
     url_pathname := "/"; method := "GET"; destination := "document" |}.

(** A script of the page. *)
Definition script_request : Request :=
  {| url := site "/assets/app.js"; url_origin := "https://lumina.test";
     url_pathname := "/assets/app.js"; method := "GET"; destination := "script" |}.

(** The message [{type: 'CACHE_URLS', urls: ['/a', '/b']}]. *)
Definition cache_a_b : MessageData := {| msg_type := "CACHE_URLS"; urls := ["/a"; "/b"] |}.

(** A world with an old generation, the two current ones and a foreign one. *)
Definition world_after_upgrade : World :=
  {| caches := [ ("lumina-rag-static-v0", {[ site "/" := page_200 ]});
                 ("lumina-rag-static-v1", {[ site "/" := page_200 ]});
                 ("lumina-rag-dynamic-v1", ∅);
                 ("other-app-v3", ∅) ];
     console := []; fetched := [];
     skipWaiting_calls := 0; clients_claimed := false |}.

(** A page open in an ordinary browser tab: no standalone signal. *)
Definition browser_tab : PWAInstall.Signals :=
  {| PWAInstall.display_mode_standalone := false;
     PWAInstall.navigator_standalone := None;
     PWAInstall.referrer := "" |}.

(** The same page shown in its own window once installed. *)
Definition standalone_window : PWAInstall.Signals :=
  {| PWAInstall.display_mode_standalone := true;
     PWAInstall.navigator_standalone := None;
     PWAInstall.referrer := "" |}.

(** A tab whose display mode turns standalone 300 ms after mount. *)
Definition standalone_from_300 (t : nat) : PWAInstall.Signals :=
  if (t <? 300)%nat then browser_tab else standalone_window.

Definition install_event : PWAInstall.BeforeInstallPromptEvent :=
  {| PWAInstall.event_id := 1; PWAInstall.has_prompt := true |}.

(** The hook after the browser has offered the installation. *)
Definition installable : PWAInstall.State :=
  fst (PWAInstall.deliver (PWAInstall.beforeinstallprompt install_event)
         (PWAInstall.mount browser_tab)).

Definition notes_txt : DataManagement.File :=
  {| DataManagement.file_name := "notes.txt"; DataManagement.file_text := Some "hello" |}.

Definition broken_txt : DataManagement.File :=
  {| DataManagement.file_name := "broken.txt"; DataManagement.file_text := None |}.

Definition not_found_404 : Response :=
  {| status := 404; statusText := "Not Found"; type := type_basic;
     headers := []; body := "" |}.

(** Every URL answers 200 except the entry script, which is not found. *)
Definition net_main_404 : Network :=
  fun _ u => if String.eqb u (site "/src/main.tsx") then Some not_found_404
             else Some page_200.

(** A controller whose registration is in place, with a worker waiting. *)
Definition registration_waiting : ServiceWorkerUtils.Registration :=
  {| ServiceWorkerUtils.scope := "https://lumina.test/";
     ServiceWorkerUtils.waiting := true;
     ServiceWorkerUtils.unregister := ServiceWorker.Fulfilled true |}.

Definition navigator_registered : ServiceWorkerUtils.Navigator :=
  Some {| ServiceWorkerUtils.register := fun _ _ => ServiceWorker.Fulfilled registration_waiting;
          ServiceWorkerUtils.ready := ServiceWorker.Fulfilled registration_waiting |}.

(** A tab that stops being standalone 300 ms after mount. *)
Definition standalone_until_300 (t : nat) : PWAInstall.Signals :=
  if (t <? 300)%nat then standalone_window else browser_tab.

End Scenarios.

(** * Properties of the service worker *)
Module ServiceWorkerProps.
Import ServiceWorker.

Lemma str_neq_false a b : str_neq a b = false <-> a = b.
Proof.
  unfold str_neq. rewrite negb_false_iff. apply String.eqb_eq.
Qed.

Lemma str_neq_true a b : str_neq a b = true <-> a <> b.
Proof.
  unfold str_neq. rewrite negb_true_iff. apply String.eqb_neq.
Qed.

(** ** Cache storage *)

Lemma Cache_match_empty meth key : Cache_match ∅ meth key = None.
Proof.
  unfold Cache_match. destruct (String.eqb meth "GET"); [apply lookup_empty | reflexivity].
Qed.

Lemma CacheStorage_match_app cs1 cs2 meth key :
  CacheStorage_match (cs1 ++ cs2) meth key =
  match CacheStorage_match cs1 meth key with
  | Some r => Some r
  | None => CacheStorage_match cs2 meth key
  end.
Proof.
  induction cs1 as [|[n c] cs1 IH]; simpl; [reflexivity|].
  destruct (Cache_match c meth key); [reflexivity | exact IH].
Qed.

Lemma CacheStorage_match_open cs name meth key :
  CacheStorage_match (CacheStorage_open cs name) meth key = CacheStorage_match cs meth key.
Proof.
  unfold CacheStorage_open. destruct (CacheStorage_get cs name); [reflexivity|].
  rewrite CacheStorage_match_app. simpl. rewrite Cache_match_empty.
  destruct (CacheStorage_match cs meth key); reflexivity.
Qed.

Lemma CacheStorage_get_app cs1 cs2 name :
  CacheStorage_get (cs1 ++ cs2) name =
  match CacheStorage_get cs1 name with
  | Some c => Some c
  | None => CacheStorage_get cs2 name
  end.
Proof.
  induction cs1 as [|[n c] cs1 IH]; simpl; [reflexivity|].
  destruct (String.eqb n name); [reflexivity | exact IH].
Qed.

Lemma CacheStorage_get_open cs name :
  CacheStorage_get (CacheStorage_open cs name) name =
  Some (default ∅ (CacheStorage_get cs name)).
Proof.
  unfold CacheStorage_open. destruct (CacheStorage_get cs name) eqn:E; simpl.
  - exact E.
  - rewrite CacheStorage_get_app, E. simpl. rewrite String.eqb_refl. reflexivity.
Qed.

Lemma CacheStorage_get_open_other cs name other :
  other <> name ->
  CacheStorage_get (CacheStorage_open cs name) other = CacheStorage_get cs other.
Proof.
  intros Hne. unfold CacheStorage_open. destruct (CacheStorage_get cs name); [reflexivity|].
  rewrite CacheStorage_get_app. simpl.
  destruct (String.eqb_spec name other) as [->|_]; [contradiction|].
  destruct (CacheStorage_get cs other); reflexivity.
Qed.

(** ** addAll *)

Lemma fetch_all_rejected net keys k :
  In k keys -> net "GET" k = None -> fetch_all net keys = None.
Proof.
  induction keys as [|k0 ks IH]; simpl; [contradiction|].
  intros [->|Hin] Hk.
  - rewrite Hk. reflexivity.
  - destruct (net "GET" k0); [|reflexivity].
    destruct (addAll_storable r); [|reflexivity].
    rewrite (IH Hin Hk). reflexivity.
Qed.

(** A rejected [addAll] into a freshly opened handle leaves every generation
    with the entries it had. *)
Lemma addAll_rejected_frame net name keys k w :
  In k keys -> net "GET" k = None ->
  let '(outcome, w') := then_ (caches_open name) (fun cache => Cache_addAll net cache keys) w in
  outcome = Rejected "TypeError: Failed to fetch" /\
  caches w' = CacheStorage_open (caches w) name /\
  console w' = console w /\
  skipWaiting_calls w' = skipWaiting_calls w.
Proof.
  intros Hin Hk. unfold then_, caches_open, Cache_addAll. simpl.
  rewrite (fetch_all_rejected net keys k Hin Hk). simpl. auto.
Qed.

(** C1, as the code has it: when the fetch of a manifest URL rejects, the
    rejection of [addAll] is caught, so the promise given to
    [event.waitUntil] fulfils and the install transition does not fail; no
    manifest entry is committed (the static generation holds what it held
    before, and is created empty when it did not exist; no lookup in any
    generation changes), [skipWaiting] is not called, and the failure shows
    only as one [console.error] line. *)
Theorem install_failure_is_caught
    (absolute : string -> string) (net : Network) (w : World) (u : string) :
  In u STATIC_ASSETS ->
  net "GET" (absolute u) = None ->
  let '(outcome, w') := install_listener absolute net w in
  outcome = Fulfilled tt /\
  CacheStorage_get (caches w') STATIC_CACHE_NAME =
    Some (default ∅ (CacheStorage_get (caches w) STATIC_CACHE_NAME)) /\
  (forall other, other <> STATIC_CACHE_NAME ->
     CacheStorage_get (caches w') other = CacheStorage_get (caches w) other) /\
  (forall meth key,
     CacheStorage_match (caches w') meth key = CacheStorage_match (caches w) meth key) /\
  skipWaiting_calls w' = skipWaiting_calls w /\
  console w' =
    console w ++
      [ console_log "[Service Worker] Installing...";
        console_log "[Service Worker] Caching static assets";
        console_error "[Service Worker] Failed to cache static assets:"
                      "TypeError: Failed to fetch" ].
Proof.
  intros Hin Hnet.
  assert (Hall : fetch_all net (map absolute STATIC_ASSETS) = None).
  { apply fetch_all_rejected with (k := absolute u); [|exact Hnet].
    apply in_map. exact Hin. }
  unfold install_listener, install_waitUntil, catch, then_, log, effect,
    caches_open, Cache_addAll.
  cbn -[fetch_all STATIC_ASSETS CacheStorage_open CacheStorage_get CacheStorage_match].
  rewrite Hall.
  cbn -[fetch_all STATIC_ASSETS CacheStorage_open CacheStorage_get CacheStorage_match].
  repeat split.
  - apply CacheStorage_get_open.
  - intros other Hne. apply CacheStorage_get_open_other. exact Hne.
  - intros meth key. apply CacheStorage_match_open.
  - rewrite <- !app_assoc. reflexivity.
Qed.

Lemma install_failure_is_caught_witness :
  let '(outcome, w') :=
    install_listener Scenarios.site Scenarios.net_icon_down Scenarios.fresh_world in
  outcome = Fulfilled tt /\
  CacheStorage_get (caches w') STATIC_CACHE_NAME =
    Some (default ∅ (CacheStorage_get (caches Scenarios.fresh_world) STATIC_CACHE_NAME)) /\
  (forall other, other <> STATIC_CACHE_NAME ->
     CacheStorage_get (caches w') other =
     CacheStorage_get (caches Scenarios.fresh_world) other) /\
  (forall meth key,
     CacheStorage_match (caches w') meth key =
     CacheStorage_match (caches Scenarios.fresh_world) meth key) /\
  skipWaiting_calls w' = skipWaiting_calls Scenarios.fresh_world /\
  console w' =
    console Scenarios.fresh_world ++
      [ console_log "[Service Worker] Installing...";
        console_log "[Service Worker] Caching static assets";
        console_error "[Service Worker] Failed to cache static assets:"
                      "TypeError: Failed to fetch" ].
Proof.
  apply (install_failure_is_caught
           Scenarios.site Scenarios.net_icon_down Scenarios.fresh_world "/lumina.svg").
  - simpl. tauto.
  - reflexivity.
Defined.

(** C1 as the specification words it fails: with the icon unreachable the
    manifest fetch fails, yet the promise given to [event.waitUntil] fulfils
    instead of rejecting. *)
Lemma install_failure_does_not_reject :
  In "/lumina.svg" STATIC_ASSETS /\
  Scenarios.net_icon_down "GET" (Scenarios.site "/lumina.svg") = None /\
  fst (install_listener Scenarios.site Scenarios.net_icon_down Scenarios.fresh_world)
    = Fulfilled tt /\
  ~ (exists reason,
       fst (install_listener Scenarios.site Scenarios.net_icon_down Scenarios.fresh_world)
         = Rejected reason).
Proof.
  split; [simpl; tauto|].
  split; [reflexivity|].
  split; [vm_compute; reflexivity|].
  intros [reason H]. vm_compute in H. discriminate H.
Qed.

(** With the whole manifest reachable the install stores it and asks to skip
    the waiting state; a later navigation without network then gets the
    stored [/index.html]. *)
Example install_then_offline_navigation :
  let '(outcome, w) :=
    install_listener Scenarios.site Scenarios.net_online Scenarios.fresh_world in
  outcome = Fulfilled tt /\
  skipWaiting_calls w = 1 /\
  fst (fetch_respondWith Scenarios.site Scenarios.net_offline
         Scenarios.notes_navigation w) = Fulfilled (Some Scenarios.page_200).
Proof. vm_compute. auto. Qed.

(** ** Activation *)

Lemma delete_each_caches names w :
  caches (snd (delete_each names w)) = fold_left CacheStorage_delete names (caches w).
Proof.
  revert w. induction names as [|n names IH]; intros w; [reflexivity|].
  cbn [delete_each fold_left]. unfold then_ at 1. unfold log, effect.
  unfold then_ at 1. unfold caches_delete. rewrite IH. reflexivity.
Qed.

Lemma keys_delete cs name n :
  In n (CacheStorage_keys (CacheStorage_delete cs name)) <->
  In n (CacheStorage_keys cs) /\ n <> name.
Proof.
  unfold CacheStorage_keys, CacheStorage_delete.
  rewrite !in_map_iff. split.
  - intros [[n' c] [<- Hin]]. apply filter_In in Hin as [Hin Hne].
    apply str_neq_true in Hne. split; [|exact Hne].
    exists (n', c). split; [reflexivity | exact Hin].
  - intros [[[n' c] [<- Hin]] Hne]. exists (n', c). split; [reflexivity|].
    apply filter_In. split; [exact Hin|]. apply str_neq_true. exact Hne.
Qed.

Lemma keys_delete_all names cs n :
  In n (CacheStorage_keys (fold_left CacheStorage_delete names cs)) <->
  In n (CacheStorage_keys cs) /\ ~ In n names.
Proof.
  revert cs. induction names as [|m names IH]; intros cs; simpl.
  - tauto.
  - rewrite IH, keys_delete. split.
    + intros [[Hin Hne] Hnot]. split; [exact Hin|]. intros [->|H]; [apply Hne; reflexivity | apply Hnot, H].
    + intros [Hin Hnot]. repeat split; [exact Hin| |].
      * intros ->. apply Hnot. left. reflexivity.
      * intros H. apply Hnot. right. exact H.
Qed.

Lemma stale_false name :
  stale name = false <->
  name = STATIC_CACHE_NAME \/ name = DYNAMIC_CACHE_NAME \/ startsWith name "lumina-rag-" = false.
Proof.
  unfold stale. rewrite !andb_false_iff, !str_neq_false. tauto.
Qed.

(** C3: a generation name is present after the activate transition exactly
    when it was present before and is the current static name, or the
    current dynamic name, or does not start with ["lumina-rag-"]. *)
Theorem activate_keeps_exactly (w : World) (cacheName : string) :
  In cacheName (CacheStorage_keys (caches (snd (activate_listener w)))) <->
  In cacheName (CacheStorage_keys (caches w)) /\
  (cacheName = STATIC_CACHE_NAME \/
   cacheName = DYNAMIC_CACHE_NAME \/
   startsWith cacheName "lumina-rag-" = false).
Proof.
  assert (Hc : caches (snd (activate_listener w)) =
               fold_left CacheStorage_delete
                 (List.filter stale (CacheStorage_keys (caches w))) (caches w)).
  { unfold activate_listener, activate_waitUntil, then_, log, effect, caches_keys,
      clients_claim.
    cbn [fst snd caches add_console].
    pose proof (delete_each_caches
                  (List.filter stale (CacheStorage_keys (caches w)))
                  (add_console (console_log "[Service Worker] Activating...") w)) as Hd.
    cbn [caches add_console] in Hd.
    destruct (delete_each _ _) as [[[]|r] w1]; cbn in Hd |- *; exact Hd. }
  rewrite Hc, keys_delete_all, filter_In, <- stale_false.
  split.
  - intros [Hin Hnot]. split; [exact Hin|].
    destruct (stale cacheName); [exfalso; apply Hnot; auto | reflexivity].
  - intros [Hin Hst]. split; [exact Hin|]. intros [_ Ht]. congruence.
Qed.

Example activate_after_upgrade :
  CacheStorage_keys (caches (snd (activate_listener Scenarios.world_after_upgrade))) =
  ["lumina-rag-static-v1"; "lumina-rag-dynamic-v1"; "other-app-v3"].
Proof. vm_compute. reflexivity. Qed.

(** ** Fetch interception *)

Lemma fetch_listener_Some location_origin absolute net request respond :
  fetch_listener location_origin absolute net request = Some respond ->
  respond = fetch_respondWith absolute net request.
Proof.
  unfold fetch_listener.
  destruct (str_neq _ _); [discriminate|].
  destruct (skipped request); [discriminate|].
  intros H. injection H as <-. reflexivity.
Qed.

(** [caches.match] finds something exactly when some generation matches, and
    what it finds is an entry of a generation. *)
Lemma CacheStorage_match_Some cs meth key r :
  CacheStorage_match cs meth key = Some r ->
  exists name c, In (name, c) cs /\ Cache_match c meth key = Some r.
Proof.
  induction cs as [|[n c] cs IH]; simpl; [discriminate|].
  destruct (Cache_match c meth key) eqn:E.
  - intros H. injection H as <-. exists n, c. auto.
  - intros H. destruct (IH H) as (n' & c' & Hin & Hm). exists n', c'. auto.
Qed.

Lemma CacheStorage_match_In cs meth key name c r0 :
  In (name, c) cs -> Cache_match c meth key = Some r0 ->
  exists r, CacheStorage_match cs meth key = Some r.
Proof.
  induction cs as [|[n c'] cs IH]; simpl; [contradiction|].
  intros [Heq|Hin] Hm.
  - injection Heq as -> ->. rewrite Hm. eauto.
  - destruct (Cache_match c' meth key); eauto.
Qed.

Lemma respondWith_hit absolute net request w r :
  CacheStorage_match (caches w) (method request) (url request) = Some r ->
  fetch_respondWith absolute net request w = (Fulfilled (Some r), w).
Proof.
  intros H. unfold fetch_respondWith, then_, caches_match. rewrite H. reflexivity.
Qed.

Lemma intercept_repeatedly_hit absolute nets request w r :
  CacheStorage_match (caches w) (method request) (url request) = Some r ->
  intercept_repeatedly absolute nets request w =
  (map (fun _ => Fulfilled (Some r)) nets, w).
Proof.
  intros H. induction nets as [|net nets IH]; [reflexivity|].
  cbn [intercept_repeatedly map]. rewrite (respondWith_hit _ _ _ _ _ H), IH. reflexivity.
Qed.

(** C4: when some generation holds an entry matching the request, the fetch
    listener answers with a stored entry for that request (the one of the
    first generation, in creation order, that matches), whatever the network
    would say, and leaves the world as it was: nothing is fetched and no
    cache changes.  So any number of repetitions gives the same answer. *)
Theorem cache_first
    (location_origin : string) (absolute : string -> string)
    (request : Request) (w : World) (name : string) (c : Cache) (r0 : Response) :
  In (name, c) (caches w) ->
  Cache_match c (method request) (url request) = Some r0 ->
  exists r,
    CacheStorage_match (caches w) (method request) (url request) = Some r /\
    (exists name' c',
       In (name', c') (caches w) /\
       Cache_match c' (method request) (url request) = Some r) /\
    (forall net respond,
       fetch_listener location_origin absolute net request = Some respond ->
       respond w = (Fulfilled (Some r), w)) /\
    (forall nets,
       intercept_repeatedly absolute nets request w =
       (map (fun _ => Fulfilled (Some r)) nets, w)).
Proof.
  intros Hin Hm.
  destruct (CacheStorage_match_In _ _ _ _ _ _ Hin Hm) as [r Hr].
  exists r. split; [exact Hr|]. split; [|split].
  - apply CacheStorage_match_Some. exact Hr.
  - intros net respond Hl. rewrite (fetch_listener_Some _ _ _ _ _ Hl).
    apply respondWith_hit. exact Hr.
  - intros nets. apply intercept_repeatedly_hit. exact Hr.
Qed.

Lemma cache_first_witness :
  exists r,
    CacheStorage_match (caches Scenarios.world_after_upgrade)
      (method Scenarios.root_request) (url Scenarios.root_request) = Some r /\
    (exists name' c',
       In (name', c') (caches Scenarios.world_after_upgrade) /\
       Cache_match c' (method Scenarios.root_request) (url Scenarios.root_request) = Some r) /\
    (forall net respond,
       fetch_listener "https://lumina.test" Scenarios.site net Scenarios.root_request
         = Some respond ->
       respond Scenarios.world_after_upgrade
         = (Fulfilled (Some r), Scenarios.world_after_upgrade)) /\
    (forall nets,
       intercept_repeatedly Scenarios.site nets Scenarios.root_request
         Scenarios.world_after_upgrade =
       (map (fun _ => Fulfilled (Some r)) nets, Scenarios.world_after_upgrade)).
Proof.
  apply (cache_first "https://lumina.test" Scenarios.site Scenarios.root_request
           Scenarios.world_after_upgrade
           "lumina-rag-static-v0" {[ Scenarios.site "/" := Scenarios.page_200 ]}
           Scenarios.page_200).
  - simpl. left. reflexivity.
  - vm_compute. reflexivity.
Defined.

(** Once the only generation holding the entry is gone, the same request
    goes to the network again. *)
Example cache_first_until_deleted :
  let w := set_caches (fun cs => CacheStorage_delete cs "lumina-rag-static-v0")
             (set_caches (fun cs => CacheStorage_delete cs "lumina-rag-static-v1")
                Scenarios.world_after_upgrade) in
  fetched (snd (fetch_respondWith Scenarios.site Scenarios.net_icon_down
                  Scenarios.root_request w))
  = [Scenarios.site "/"].
Proof. vm_compute. reflexivity. Qed.

(** C5, as the code has it: for an intercepted request that matches no
    cached entry and whose network fetch rejects, the promise given to
    [event.respondWith] never rejects.  For a document destination it
    fulfils with the result of [caches.match('/index.html')]: the stored
    [/index.html] entry when some generation holds one, and [undefined] (no
    response) when none does.  For every other destination it fulfils with
    the made-up plain-text 503 response.  No cache changes. *)
Theorem offline_fallback
    (location_origin : string) (absolute : string -> string) (net : Network)
    (request : Request) (w : World) (respond : Promise (option Response)) :
  fetch_listener location_origin absolute net request = Some respond ->
  CacheStorage_match (caches w) (method request) (url request) = None ->
  net (method request) (url request) = None ->
  let '(outcome, w') := respond w in
  outcome =
    Fulfilled
      (if String.eqb (destination request) "document"
       then CacheStorage_match (caches w) "GET" (absolute "/index.html")
       else Some {| status := 503;
                    statusText := "Service Unavailable";
                    type := type_default;
                    headers := [("Content-Type", "text/plain")];
                    body := "Offline - content not available" |}) /\
  caches w' = caches w /\
  fetched w' = fetched w ++ [url request].
Proof.
  intros Hl Hmiss Hnet. rewrite (fetch_listener_Some _ _ _ _ _ Hl).
  unfold fetch_respondWith, then_, catch, caches_match, fetch.
  rewrite Hmiss, Hnet.
  destruct (String.eqb (destination request) "document"); cbn; auto.
Qed.

Lemma offline_fallback_witness :
  let '(outcome, w') :=
    fetch_respondWith Scenarios.site Scenarios.net_offline Scenarios.script_request
      Scenarios.fresh_world in
  outcome =
    Fulfilled
      (if String.eqb (destination Scenarios.script_request) "document"
       then CacheStorage_match (caches Scenarios.fresh_world) "GET"
              (Scenarios.site "/index.html")
       else Some {| status := 503;
                    statusText := "Service Unavailable";
                    type := type_default;
                    headers := [("Content-Type", "text/plain")];
                    body := "Offline - content not available" |}) /\
  caches w' = caches Scenarios.fresh_world /\
  fetched w' = fetched Scenarios.fresh_world ++ [url Scenarios.script_request].
Proof.
  apply (offline_fallback "https://lumina.test" Scenarios.site Scenarios.net_offline
           Scenarios.script_request Scenarios.fresh_world
           (fetch_respondWith Scenarios.site Scenarios.net_offline
              Scenarios.script_request)).
  - reflexivity.
  - reflexivity.
  - reflexivity.
Defined.

(** C5 as the specification words it fails: a navigation that is intercepted,
    matches no cached entry and cannot reach the network, in a worker whose
    caches hold no [/index.html], is answered with [undefined]; no cached
    document is delivered. *)
Lemma offline_navigation_without_index :
  exists respond,
    fetch_listener "https://lumina.test" Scenarios.site Scenarios.net_offline
      Scenarios.notes_navigation = Some respond /\
    destination Scenarios.notes_navigation = "document" /\
    CacheStorage_match (caches Scenarios.fresh_world)
      (method Scenarios.notes_navigation) (url Scenarios.notes_navigation) = None /\
    Scenarios.net_offline
      (method Scenarios.notes_navigation) (url Scenarios.notes_navigation) = None /\
    fst (respond Scenarios.fresh_world) = Fulfilled None /\
    ~ (exists document, fst (respond Scenarios.fresh_world) = Fulfilled (Some document)).
Proof.
  eexists. split; [reflexivity|].
  repeat split.
  intros [document H]. vm_compute in H. discriminate H.
Qed.

(** ** Control messages *)

(** C7, as the code has it: [CACHE_URLS] is all or nothing.  When the fetch
    of any URL of the list rejects, the promise given to [event.waitUntil]
    rejects and nothing of the list is stored, the URLs fetched with success
    included: the dynamic generation holds what it held before (it is created
    empty when it did not exist) and no lookup in any generation changes. *)
Theorem cache_urls_all_or_nothing
    (absolute : string -> string) (net : Network) (w : World)
    (data : MessageData) (u : string) :
  msg_type data = "CACHE_URLS" ->
  In u (urls data) ->
  net "GET" (absolute u) = None ->
  let '(w', waited) := message_listener absolute net (Some data) w in
  waited = Some (Rejected "TypeError: Failed to fetch") /\
  CacheStorage_get (caches w') DYNAMIC_CACHE_NAME =
    Some (default ∅ (CacheStorage_get (caches w) DYNAMIC_CACHE_NAME)) /\
  (forall other, other <> DYNAMIC_CACHE_NAME ->
     CacheStorage_get (caches w') other = CacheStorage_get (caches w) other) /\
  (forall meth key,
     CacheStorage_match (caches w') meth key = CacheStorage_match (caches w) meth key).
Proof.
  intros Hty Hin Hnet. unfold message_listener. rewrite Hty.
  cbn [String.eqb Ascii.eqb Bool.eqb].
  pose proof (addAll_rejected_frame net DYNAMIC_CACHE_NAME (map absolute (urls data))
                (absolute u) w (in_map absolute _ _ Hin) Hnet) as H.
  destruct (then_ _ _ w) as [outcome w'].
  destruct H as (-> & Hc & _ & _). rewrite Hc.
  split; [reflexivity|]. split; [apply CacheStorage_get_open|]. split.
  - intros other Hne. apply CacheStorage_get_open_other. exact Hne.
  - intros meth key. apply CacheStorage_match_open.
Qed.

Lemma cache_urls_all_or_nothing_witness :
  let '(w', waited) :=
    message_listener Scenarios.site Scenarios.net_b_down (Some Scenarios.cache_a_b)
      Scenarios.fresh_world in
  waited = Some (Rejected "TypeError: Failed to fetch") /\
  CacheStorage_get (caches w') DYNAMIC_CACHE_NAME =
    Some (default ∅ (CacheStorage_get (caches Scenarios.fresh_world) DYNAMIC_CACHE_NAME)) /\
  (forall other, other <> DYNAMIC_CACHE_NAME ->
     CacheStorage_get (caches w') other =
     CacheStorage_get (caches Scenarios.fresh_world) other) /\
  (forall meth key,
     CacheStorage_match (caches w') meth key =
     CacheStorage_match (caches Scenarios.fresh_world) meth key).
Proof.
  apply (cache_urls_all_or_nothing Scenarios.site Scenarios.net_b_down
           Scenarios.fresh_world Scenarios.cache_a_b "/b").
  - reflexivity.
  - simpl. tauto.
  - reflexivity.
Defined.

(** C7 as the specification words it fails: [/a] is fetched with success
    before [/b] fails, and [/a] is not in any cache afterwards. *)
Lemma cache_urls_keeps_nothing :
  let w' := fst (message_listener Scenarios.site Scenarios.net_b_down
                   (Some Scenarios.cache_a_b) Scenarios.fresh_world) in
  Scenarios.net_b_down "GET" (Scenarios.site "/a") = Some Scenarios.page_200 /\
  addAll_storable Scenarios.page_200 = true /\
  Scenarios.net_b_down "GET" (Scenarios.site "/b") = None /\
  In (Scenarios.site "/a") (fetched w') /\
  CacheStorage_get (caches w') DYNAMIC_CACHE_NAME = Some ∅ /\
  CacheStorage_match (caches w') "GET" (Scenarios.site "/a") = None.
Proof.
  vm_compute. repeat split. left. reflexivity.
Qed.

End ServiceWorkerProps.

(** * Properties of the install-flow controller *)
Module PWAInstallProps.
Import PWAInstall.

(** ** Installed detection *)

Lemma isStandalone_true env :
  isStandalone env = true <->
  display_mode_standalone env = true \/
  navigator_standalone env = Some true \/
  includes (referrer env) "android-app://" = true.
Proof.
  unfold isStandalone.
  destruct (display_mode_standalone env); [tauto|].
  destruct (navigator_standalone env) as [[|]|]; split; auto.
  - intros [H|[H|H]]; [discriminate H | discriminate H | exact H].
  - intros [H|[H|H]]; [discriminate H | discriminate H | exact H].
Qed.

(** The timer alone: the flag is the disjunction of the signals at the last
    multiple of the period. *)
Lemma clock_isInstalled env t :
  isInstalled (clock env t) = isStandalone (env (t / POLL_INTERVAL * POLL_INTERVAL)).
Proof.
  unfold POLL_INTERVAL.
  induction t as [|t IH].
  - reflexivity.
  - cbn [clock]. unfold POLL_INTERVAL.
    destruct (Nat.eqb_spec (S t mod 1000) 0) as [Hz|Hnz].
    + cbn [checkInstalled setIsInstalled isInstalled]. f_equal. f_equal.
      pose proof (Nat.div_mod_eq (S t) 1000). lia.
    + rewrite IH. f_equal. f_equal. f_equal.
      pose proof (Nat.div_mod_eq (S t) 1000) as H1.
      pose proof (Nat.div_mod_eq t 1000) as H2.
      pose proof (Nat.mod_upper_bound (S t) 1000 ltac:(lia)) as H3.
      pose proof (Nat.mod_upper_bound t 1000 ltac:(lia)) as H4.
      nia.
Qed.

(** C8: a polling step leaves the flag true exactly when one of the three
    signals holds (standalone display mode, the platform's standalone flag,
    a referrer containing ["android-app://"]) and touches nothing else; and
    with the timer alone, once the display mode is standalone from time [t0]
    on, the flag is true at every time from [t0 + POLL_INTERVAL] on. *)
Theorem installed_detection (env : nat -> Signals) (t0 t : nat) :
  POLL_INTERVAL = 1000 /\
  (forall signals s,
     let s' := fst (deliver (interval signals) s) in
     (isInstalled s' = true <->
        display_mode_standalone signals = true \/
        navigator_standalone signals = Some true \/
        includes (referrer signals) "android-app://" = true) /\
     canInstall s' = canInstall s /\
     isPrompting s' = isPrompting s /\
     deferredPrompt s' = deferredPrompt s) /\
  ((forall u, t0 <= u -> display_mode_standalone (env u) = true) ->
   t0 + POLL_INTERVAL <= t ->
   isInstalled (clock env t) = true).
Proof.
  split; [reflexivity|]. split.
  - intros signals s. cbn. split; [apply isStandalone_true | auto].
  - intros Hon Ht. rewrite clock_isInstalled. apply isStandalone_true. left.
    apply Hon. unfold POLL_INTERVAL in *.
    pose proof (Nat.div_mod_eq t 1000) as H1.
    pose proof (Nat.mod_upper_bound t 1000 ltac:(lia)) as H2.
    lia.
Qed.

Lemma installed_detection_witness :
  isInstalled (clock Scenarios.standalone_from_300 1300) = true.
Proof.
  apply (proj2 (proj2 (installed_detection Scenarios.standalone_from_300 300 1300))).
  - intros u Hu. unfold Scenarios.standalone_from_300.
    destruct (Nat.ltb_spec u 300) as [Hlt|_]; [lia | reflexivity].
  - unfold POLL_INTERVAL. lia.
Defined.

Example installed_before_first_poll :
  isInstalled (clock Scenarios.standalone_from_300 999) = false.
Proof. vm_compute. reflexivity. Qed.

Example installed_at_first_poll :
  isInstalled (clock Scenarios.standalone_from_300 1000) = true.
Proof. vm_compute. reflexivity. Qed.

(** ** The installed flag is overwritten by the poll *)

(** What every browser event does to the flag. *)
Lemma deliver_isInstalled ev s :
  isInstalled (fst (deliver ev s)) =
  match ev with
  | beforeinstallprompt _ => isInstalled s
  | appinstalled => true
  | interval signals => isStandalone signals
  end.
Proof.
  destruct ev as [e| |signals]; cbn; [|reflexivity|reflexivity].
  unfold handleBeforeInstallPrompt. destruct (has_prompt e); reflexivity.
Qed.

(** C2 fails on the code: the flag raised by the [appinstalled] handler, or
    by an accepted prompt, is put back to [false] by the next polling step of
    a page that is still shown in a browser tab. *)
Theorem installed_is_not_absorbing :
  let after_event := fst (deliver appinstalled (mount Scenarios.browser_tab)) in
  let after_accept :=
    fst (promptInstall (userChoice_resolves accepted "web") Scenarios.installable) in
  isInstalled after_event = true /\
  isInstalled (fst (deliver (interval Scenarios.browser_tab) after_event)) = false /\
  isInstalled after_accept = true /\
  isInstalled (fst (deliver (interval Scenarios.browser_tab) after_accept)) = false.
Proof. vm_compute. auto. Qed.

(** ** promptInstall *)



(** A function kept from the render before the first call still holds the
    used event and replays it. *)
Example promptInstall_stale_closure :
  let s := Scenarios.installable in
  let s1 := fst (promptInstall (userChoice_resolves dismissed "web") s) in
  prompts (snd (promptInstall_closure (deferredPrompt s) []
                  (prompt_throws "InvalidStateError") s1)) = true.
Proof. vm_compute. reflexivity. Qed.

Example promptInstall_twice :
  let '(s1, effects1) :=
    promptInstall (userChoice_resolves dismissed "web") Scenarios.installable in
  let '(s2, effects2) := promptInstall (userChoice_resolves accepted "web") s1 in
  prompts effects1 = true /\ prompts effects2 = false /\ s2 = s1 /\
  isInstalled s2 = false.
Proof. vm_compute. auto. Qed.

End PWAInstallProps.

(** * Properties of the file list *)
Module DataManagementProps.
Import DataManagement.


Example upload_broken_file :
  files (fst (handleFileUpload 7%N Scenarios.broken_txt
                (fst (handleFileUpload 3%N Scenarios.notes_txt initial)))) =
  [ {| name := "notes.txt"; id := 3%N; content := Some "hello" |};
    {| name := "broken.txt"; id := 7%N; content := None |} ].
Proof. reflexivity. Qed.

(** C10: with an empty file list [indexDocuments] returns at once: the
    state is unchanged ([ragStatus] and [isIndexing] included) and nothing is
    called, whether a callback is supplied or not. *)
Theorem indexDocuments_empty_is_noop
    (ragIndexFunction : option RagIndexFunction) (s : State) :
  files s = [] ->
  indexDocuments ragIndexFunction s = (s, []).
Proof.
  intros H. unfold indexDocuments, indexDocuments_closure. rewrite H. reflexivity.
Qed.

Lemma indexDocuments_empty_is_noop_witness :
  indexDocuments (Some (fun _ => true)) initial = (initial, []) /\
  indexDocuments None initial = (initial, []).
Proof.
  split.
  - apply (indexDocuments_empty_is_noop (Some (fun _ => true)) initial). reflexivity.
  - apply (indexDocuments_empty_is_noop None initial). reflexivity.
Defined.

Example indexDocuments_nonempty :
  let s := fst (handleFileUpload 3%N Scenarios.notes_txt initial) in
  snd (indexDocuments (Some (fun _ => false)) s) =
    [call_ragIndexFunction (files s); console_error "Indexing failed:"] /\
  ragStatus (fst (indexDocuments (Some (fun _ => false)) s)) = "Indexing Failed" /\
  isIndexing (fst (indexDocuments (Some (fun _ => false)) s)) = false.
Proof. vm_compute. auto. Qed.

End DataManagementProps.

(** * More on the service worker: the paths where caching succeeds *)
Module ServiceWorkerMore.
Import ServiceWorker.

(** ** addAll *)

Lemma fetch_all_not_storable net keys k r :
  In k keys -> net "GET" k = Some r -> addAll_storable r = false ->
  fetch_all net keys = None.
Proof.
  induction keys as [|k0 ks IH]; simpl; [contradiction|].
  intros [->|Hin] Hk Hr.
  - rewrite Hk, Hr. reflexivity.
  - destruct (net "GET" k0) as [r0|]; [|reflexivity].
    destruct (addAll_storable r0); [|reflexivity].
    rewrite (IH Hin Hk Hr). reflexivity.
Qed.



(** ** Cache storage *)

Lemma CacheStorage_get_update cs name f other :
  CacheStorage_get (CacheStorage_update cs name f) other =
  if String.eqb other name then f <$> CacheStorage_get cs name
  else CacheStorage_get cs other.
Proof.
  induction cs as [|[n c] cs IH]; simpl.
  - destruct (String.eqb other name); reflexivity.
  - destruct (String.eqb_spec n name) as [Hn|Hn]; simpl.
    + subst n. destruct (String.eqb_spec other name) as [Ho|Ho].
      * subst other. rewrite String.eqb_refl. reflexivity.
      * destruct (String.eqb_spec name other) as [Hno|_]; [congruence | reflexivity].
    + destruct (String.eqb_spec n other) as [Hno|Hno].
      * subst other. destruct (String.eqb_spec n name) as [?|_]; [contradiction | reflexivity].
      * exact IH.
Qed.

Lemma CacheStorage_keys_update cs name f :
  CacheStorage_keys (CacheStorage_update cs name f) = CacheStorage_keys cs.
Proof.
  unfold CacheStorage_keys. induction cs as [|[n c] cs IH]; simpl; [reflexivity|].
  destruct (String.eqb n name); simpl; [reflexivity|]. rewrite IH. reflexivity.
Qed.







(** X2: a manifest URL that answers with a status outside 200-299 (a 404,
    say) spoils the install like a failed fetch: the promise still fulfils,
    nothing of the manifest is stored and no lookup changes, [skipWaiting]
    is not called, and the console gets the error line. *)
Theorem install_non_ok_asset
    (absolute : string -> string) (net : Network) (w : World) (u : string) (r : Response) :
  In u STATIC_ASSETS ->
  net "GET" (absolute u) = Some r ->
  addAll_storable r = false ->
  let '(outcome, w') := install_listener absolute net w in
  outcome = Fulfilled tt /\
  skipWaiting_calls w' = skipWaiting_calls w /\
  CacheStorage_get (caches w') STATIC_CACHE_NAME =
    Some (default ∅ (CacheStorage_get (caches w) STATIC_CACHE_NAME)) /\
  (forall meth key,
     CacheStorage_match (caches w') meth key = CacheStorage_match (caches w) meth key) /\
  exists reason,
    console w' =
      console w ++
        [ console_log "[Service Worker] Installing...";
          console_log "[Service Worker] Caching static assets";
          console_error "[Service Worker] Failed to cache static assets:" reason ].
Proof.
  intros Hin Hnet Hbad.
  assert (Hall : fetch_all net (map absolute STATIC_ASSETS) = None).
  { apply fetch_all_not_storable with (k := absolute u) (r := r); auto.
    apply in_map. exact Hin. }
  unfold install_listener, install_waitUntil, catch, then_, log, effect,
    caches_open, Cache_addAll.
  cbn -[fetch_all STATIC_ASSETS CacheStorage_open CacheStorage_get CacheStorage_match].
  rewrite Hall.
  cbn -[fetch_all STATIC_ASSETS CacheStorage_open CacheStorage_get CacheStorage_match].
  split; [reflexivity|]. split; [reflexivity|].
  split; [apply ServiceWorkerProps.CacheStorage_get_open|].
  split; [intros; apply ServiceWorkerProps.CacheStorage_match_open|].
  eexists. rewrite <- !app_assoc. reflexivity.
Qed.

Lemma install_non_ok_asset_witness :
  let '(outcome, w') :=
    install_listener Scenarios.site Scenarios.net_main_404 Scenarios.fresh_world in
  outcome = Fulfilled tt /\
  skipWaiting_calls w' = skipWaiting_calls Scenarios.fresh_world /\
  CacheStorage_get (caches w') STATIC_CACHE_NAME =
    Some (default ∅ (CacheStorage_get (caches Scenarios.fresh_world) STATIC_CACHE_NAME)) /\
  (forall meth key,
     CacheStorage_match (caches w') meth key =
     CacheStorage_match (caches Scenarios.fresh_world) meth key) /\
  exists reason,
    console w' =
      console Scenarios.fresh_world ++
        [ console_log "[Service Worker] Installing...";
          console_log "[Service Worker] Caching static assets";
          console_error "[Service Worker] Failed to cache static assets:" reason ].
Proof.
  apply (install_non_ok_asset Scenarios.site Scenarios.net_main_404 Scenarios.fresh_world
           "/src/main.tsx" Scenarios.not_found_404).
  - simpl. tauto.
  - reflexivity.
  - reflexivity.
Defined.

(** ** Fetch interception: the network paths *)

Lemma Cache_match_GET (c : Cache) key : Cache_match c "GET" key = c !! key.
Proof. reflexivity. Qed.

Lemma Cache_match_not_GET (c : Cache) meth key :
  String.eqb meth "GET" = false -> Cache_match c meth key = None.
Proof. intros H. unfold Cache_match. rewrite H. reflexivity. Qed.


(** Putting a key that no generation matches changes no lookup that hits. *)
Lemma match_kept_by_put cs name k0 r0 meth k r :
  CacheStorage_match cs "GET" k0 = None ->
  CacheStorage_match cs meth k = Some r ->
  CacheStorage_match (CacheStorage_update cs name (<[k0:=r0]>)) meth k = Some r.
Proof.
  induction cs as [|[n c] cs IH]; simpl; [discriminate|].
  destruct (Cache_match c "GET" k0) eqn:E0; [discriminate|]. intros Hm0 Hm.
  destruct (String.eqb n name); simpl.
  - destruct (String.eqb meth "GET") eqn:Eg.
    + apply String.eqb_eq in Eg. subst meth.
      destruct (String.eqb_spec k0 k) as [Hk|Hne].
      * subst k. rewrite E0 in Hm. congruence.
      * rewrite Cache_match_GET, lookup_insert_ne by exact Hne.
        rewrite Cache_match_GET in Hm. exact Hm.
    + rewrite (Cache_match_not_GET _ _ _ Eg).
      rewrite (Cache_match_not_GET _ _ _ Eg) in Hm. exact Hm.
  - destruct (Cache_match c meth k); [exact Hm|]. apply IH; assumption.
Qed.

(** A key that no generation matches is in no generation. *)
Lemma unmatched_key_absent cs name (c : Cache) k :
  CacheStorage_match cs "GET" k = None ->
  CacheStorage_get cs name = Some c ->
  c !! k = None.
Proof.
  induction cs as [|[n c0] cs IH]; simpl; [discriminate|].
  destruct (Cache_match c0 "GET" k) eqn:E0; [discriminate|]. intros Hm.
  destruct (String.eqb n name).
  - intros H. injection H as <-. exact E0.
  - apply IH. exact Hm.
Qed.

Lemma ResponseType_eqb_eq a b : ResponseType_eqb a b = true <-> a = b.
Proof. destruct a, b; simpl; split; congruence. Qed.

(** Whether the fetch listener stores a network response. *)
Lemma cacheable_iff (r : Response) :
  negb (status r =? 200)%Z || negb (ResponseType_eqb (type r) type_basic) = false <->
  status r = 200%Z /\ type r = type_basic.
Proof.
  rewrite orb_false_iff, !negb_false_iff, Z.eqb_eq, ResponseType_eqb_eq. tauto.
Qed.



(** X4: a network response that is not a basic 200 (an error status, an
    opaque or cross-origin response) is handed to the page as it is and never
    stored: the caches are exactly as before. *)
Theorem other_responses_pass_uncached
    (location_origin : string) (absolute : string -> string) (net : Network)
    (request : Request) (w : World) (respond : Promise (option Response)) (r : Response) :
  fetch_listener location_origin absolute net request = Some respond ->
  CacheStorage_match (caches w) (method request) (url request) = None ->
  net (method request) (url request) = Some r ->
  status r <> 200%Z \/ type r <> type_basic ->
  let '(outcome, w') := respond w in
  outcome = Fulfilled (Some r) /\
  caches w' = caches w /\
  fetched w' = fetched w ++ [url request].
Proof.
  intros Hl Hmiss Hnet Hbad.
  rewrite (ServiceWorkerProps.fetch_listener_Some _ _ _ _ _ Hl).
  assert (Hc : negb (status r =? 200)%Z || negb (ResponseType_eqb (type r) type_basic)
               = true).
  { destruct (negb (status r =? 200)%Z || negb (ResponseType_eqb (type r) type_basic))
      eqn:E; [reflexivity|].
    apply cacheable_iff in E. tauto. }
  unfold fetch_respondWith, then_, catch, caches_match, fetch, resolve.
  rewrite Hmiss, Hnet, Hc. cbn. auto.
Qed.

Lemma other_responses_pass_uncached_witness :
  let '(outcome, w') :=
    fetch_respondWith Scenarios.site Scenarios.net_main_404
      {| url := Scenarios.site "/src/main.tsx"; url_origin := "https://lumina.test";
         url_pathname := "/src/main.tsx"; method := "GET"; destination := "script" |}
      Scenarios.fresh_world in
  outcome = Fulfilled (Some Scenarios.not_found_404) /\
  caches w' = caches Scenarios.fresh_world /\
  fetched w' = fetched Scenarios.fresh_world ++ [Scenarios.site "/src/main.tsx"].
Proof.
  apply (other_responses_pass_uncached "https://lumina.test" Scenarios.site
           Scenarios.net_main_404
           {| url := Scenarios.site "/src/main.tsx"; url_origin := "https://lumina.test";
              url_pathname := "/src/main.tsx"; method := "GET"; destination := "script" |}
           Scenarios.fresh_world
           (fetch_respondWith Scenarios.site Scenarios.net_main_404
              {| url := Scenarios.site "/src/main.tsx"; url_origin := "https://lumina.test";
                 url_pathname := "/src/main.tsx"; method := "GET";
                 destination := "script" |})
           Scenarios.not_found_404).
  - reflexivity.
  - reflexivity.
  - reflexivity.
  - left. discriminate.
Defined.

(** X5: whatever the request, the network and the caches, the promise given
    to [event.respondWith] fulfils; no stored entry is removed or replaced
    (a lookup that hit before gives the same response after, and every
    generation keeps each entry it had); only the dynamic generation can
    gain an entry; at most the request's own URL is fetched; and the console,
    [skipWaiting] and the claim of clients are not touched. *)
Theorem fetch_interception_preserves
    (absolute : string -> string) (net : Network) (request : Request) (w : World) :
  let '(outcome, w') := fetch_respondWith absolute net request w in
  (exists answer, outcome = Fulfilled answer) /\
  (forall meth key r,
     CacheStorage_match (caches w) meth key = Some r ->
     CacheStorage_match (caches w') meth key = Some r) /\
  (forall name (c : Cache) key r,
     CacheStorage_get (caches w) name = Some c -> c !! key = Some r ->
     exists c' : Cache, CacheStorage_get (caches w') name = Some c' /\ c' !! key = Some r) /\
  (forall other, other <> DYNAMIC_CACHE_NAME ->
     CacheStorage_get (caches w') other = CacheStorage_get (caches w) other) /\
  (fetched w' = fetched w \/ fetched w' = fetched w ++ [url request]) /\
  console w' = console w /\
  skipWaiting_calls w' = skipWaiting_calls w /\
  clients_claimed w' = clients_claimed w.
Proof.
  unfold fetch_respondWith, then_, catch, caches_match, fetch, detached, caches_open,
    Cache_put, effect, resolve, reject.
  destruct (CacheStorage_match (caches w) (method request) (url request)) as [hit|] eqn:Hm.
  { cbn. repeat split; eauto. }
  assert (Hsame : forall f : World -> World,
            caches (f w) = caches w ->
            (forall meth key r,
               CacheStorage_match (caches w) meth key = Some r ->
               CacheStorage_match (caches (f w)) meth key = Some r) /\
            (forall name (c : Cache) key r,
               CacheStorage_get (caches w) name = Some c -> c !! key = Some r ->
               exists c' : Cache,
                 CacheStorage_get (caches (f w)) name = Some c' /\ c' !! key = Some r) /\
            (forall other, other <> DYNAMIC_CACHE_NAME ->
               CacheStorage_get (caches (f w)) other = CacheStorage_get (caches w) other)).
  { intros f ->. repeat split; eauto. }
  destruct (net (method request) (url request)) as [r|] eqn:Hn.
  - destruct (negb (status r =? 200)%Z || negb (ResponseType_eqb (type r) type_basic)).
    + cbn. destruct (Hsame (add_fetched [url request]) eq_refl) as (H1 & H2 & H3).
      repeat split; eauto.
    + destruct (String.eqb (method request) "GET") eqn:Hg.
      * apply String.eqb_eq in Hg. rewrite Hg in Hm.
        cbn -[CacheStorage_open CacheStorage_update CacheStorage_get CacheStorage_match].
        assert (Hmo : CacheStorage_match (CacheStorage_open (caches w) DYNAMIC_CACHE_NAME)
                        "GET" (url request) = None)
          by (rewrite ServiceWorkerProps.CacheStorage_match_open; exact Hm).
        split; [eauto|]. split; [|split; [|split; [|repeat split; auto]]].
        -- intros meth key r0 H0. apply match_kept_by_put; [exact Hmo|].
           rewrite ServiceWorkerProps.CacheStorage_match_open. exact H0.
        -- intros name c key r0 Hc Hk. rewrite CacheStorage_get_update.
           destruct (String.eqb_spec name DYNAMIC_CACHE_NAME) as [->|Hne].
           ++ rewrite ServiceWorkerProps.CacheStorage_get_open, Hc.
              cbn [default fmap option_fmap option_map]. eexists. split; [reflexivity|].
              rewrite lookup_insert_ne; [exact Hk|]. intros <-.
              rewrite (unmatched_key_absent _ _ _ _ Hm Hc) in Hk. discriminate Hk.
           ++ rewrite ServiceWorkerProps.CacheStorage_get_open_other by exact Hne. eauto.
        -- intros other Hne. rewrite CacheStorage_get_update.
           destruct (String.eqb_spec other DYNAMIC_CACHE_NAME) as [->|_]; [contradiction|].
           apply ServiceWorkerProps.CacheStorage_get_open_other. exact Hne.
      * cbn -[CacheStorage_open CacheStorage_get CacheStorage_match].
        split; [eauto|]. split; [|split; [|split; [|repeat split; auto]]].
        -- intros meth key r0 H0.
           rewrite ServiceWorkerProps.CacheStorage_match_open. exact H0.
        -- intros name c key r0 Hc Hk.
           destruct (String.eqb_spec name DYNAMIC_CACHE_NAME) as [->|Hne].
           ++ rewrite ServiceWorkerProps.CacheStorage_get_open, Hc. eauto.
           ++ rewrite ServiceWorkerProps.CacheStorage_get_open_other by exact Hne. eauto.
        -- intros other Hne.
           apply ServiceWorkerProps.CacheStorage_get_open_other. exact Hne.
  - destruct (String.eqb (destination request) "document"); cbn;
      destruct (Hsame (add_fetched [url request]) eq_refl) as (H1 & H2 & H3);
      repeat split; eauto.
Qed.

(** ** Which requests the listener leaves alone *)

Lemma prefix_append p s : String.prefix p s = true <-> exists b, s = p +:+ b.
Proof.
  revert s. induction p as [|c p IH]; intros s.
  - destruct s; simpl; (split; [intros _; eexists; reflexivity | reflexivity]).
  - destruct s as [|d s]; simpl.
    + split; [discriminate | intros [b H]; discriminate H].
    + destruct (Ascii.ascii_dec c d) as [->|Hne].
      * rewrite IH. split; intros [b H]; exists b.
        -- rewrite H. reflexivity.
        -- injection H as H. exact H.
      * split; [discriminate | intros [b H]; injection H as H1 H2; congruence].
Qed.

Lemma includes_append s p : includes s p = true <-> exists a b, s = a +:+ p +:+ b.
Proof.
  induction s as [|c s IH].
  - cbn [includes]. rewrite orb_false_r, prefix_append. split.
    + intros [b H]. exists "", b. exact H.
    + intros (a & b & H). destruct a; [exists b; exact H | discriminate H].
  - cbn [includes]. rewrite orb_true_iff, prefix_append, IH. split.
    + intros [[b H]|(a & b & H)].
      * exists "", b. exact H.
      * exists (String c a), b. rewrite H. reflexivity.
    + intros (a & b & H). destruct a as [|d a].
      * left. exists b. exact H.
      * right. exists a, b. cbn [String.append] in H. injection H as _ H. exact H.
Qed.

(** X6: the listener lets a request pass untouched (no [respondWith])
    exactly when its origin is not the worker's, or its path contains
    ["/workers/"] or ["/node_modules/"] anywhere, or its URL begins with
    ["chrome-extension://"] or ["moz-extension://"]. *)
Theorem not_intercepted_iff
    (location_origin : string) (absolute : string -> string) (net : Network)
    (request : Request) :
  fetch_listener location_origin absolute net request = None <->
  url_origin request <> location_origin \/
  (exists a b, url_pathname request = a +:+ "/workers/" +:+ b) \/
  (exists a b, url_pathname request = a +:+ "/node_modules/" +:+ b) \/
  (exists b, url request = "chrome-extension://" +:+ b) \/
  (exists b, url request = "moz-extension://" +:+ b).
Proof.
  rewrite <- !includes_append, <- !prefix_append.
  unfold fetch_listener, skipped, startsWith.
  destruct (str_neq (url_origin request) location_origin) eqn:Eo.
  - apply ServiceWorkerProps.str_neq_true in Eo. tauto.
  - apply ServiceWorkerProps.str_neq_false in Eo.
    destruct (includes (url_pathname request) "/workers/");
      destruct (includes (url_pathname request) "/node_modules/");
      destruct (String.prefix "chrome-extension://" (url request));
      destruct (String.prefix "moz-extension://" (url request));
      cbn [orb]; split; auto; try discriminate;
      intros [H|[H|[H|[H|H]]]]; congruence.
Qed.

Example worker_script_not_intercepted :
  fetch_listener "https://lumina.test" Scenarios.site Scenarios.net_online
    {| url := Scenarios.site "/assets/workers/embed.js";
       url_origin := "https://lumina.test";
       url_pathname := "/assets/workers/embed.js";
       method := "GET"; destination := "worker" |} = None.
Proof. reflexivity. Qed.

(** ** Activation: what is kept *)

Lemma CacheStorage_get_delete cs name other :
  CacheStorage_get (CacheStorage_delete cs name) other =
  if String.eqb other name then None else CacheStorage_get cs other.
Proof.
  unfold CacheStorage_delete. induction cs as [|[n c] cs IH]; simpl.
  - destruct (String.eqb other name); reflexivity.
  - unfold str_neq at 1. cbn [fst].
    destruct (String.eqb_spec n name) as [Hn|Hn]; cbn [negb].
    + subst n. rewrite IH. destruct (String.eqb_spec other name) as [Ho|Ho].
      * reflexivity.
      * destruct (String.eqb_spec name other) as [?|_]; [congruence | reflexivity].
    + simpl. destruct (String.eqb_spec n other) as [Hno|Hno].
      * subst other. destruct (String.eqb_spec n name) as [?|_]; [contradiction | reflexivity].
      * exact IH.
Qed.

Lemma CacheStorage_get_delete_all names cs other :
  ~ In other names ->
  CacheStorage_get (fold_left CacheStorage_delete names cs) other = CacheStorage_get cs other.
Proof.
  revert cs. induction names as [|n names IH]; intros cs Hn; simpl; [reflexivity|].
  rewrite IH by (intros H; apply Hn; right; exact H).
  rewrite CacheStorage_get_delete.
  destruct (String.eqb_spec other n) as [->|_]; [|reflexivity].
  exfalso. apply Hn. left. reflexivity.
Qed.

Lemma delete_each_run names w :
  exists w',
    delete_each names w = (Fulfilled tt, w') /\
    caches w' = fold_left CacheStorage_delete names (caches w) /\
    fetched w' = fetched w /\
    skipWaiting_calls w' = skipWaiting_calls w /\
    clients_claimed w' = clients_claimed w.
Proof.
  revert w. induction names as [|n names IH]; intros w.
  - exists w. repeat split.
  - cbn [delete_each fold_left]. unfold then_ at 1. unfold log, effect.
    unfold then_ at 1. unfold caches_delete.
    match goal with |- context [delete_each names ?w0] => destruct (IH w0) as (w' & -> & Hc & Hf & Hs & Hcl) end.
    exists w'. repeat split; assumption.
Qed.

Lemma activate_run w :
  exists w',
    activate_listener w = (Fulfilled tt, w') /\
    caches w' =
      fold_left CacheStorage_delete (List.filter stale (CacheStorage_keys (caches w)))
        (caches w) /\
    fetched w' = fetched w /\
    skipWaiting_calls w' = skipWaiting_calls w /\
    clients_claimed w' = true.
Proof.
  unfold activate_listener, activate_waitUntil, then_, log, effect, caches_keys,
    clients_claim.
  match goal with |- context [delete_each ?ns ?w0] =>
    destruct (delete_each_run ns w0) as (w1 & -> & Hc & Hf & Hs & _) end.
  eexists. split; [reflexivity|]. cbn. repeat split; assumption.
Qed.

Lemma filter_none {A} (f : A -> bool) (l : list A) :
  (forall x, In x l -> f x = false) -> List.filter f l = [].
Proof.
  induction l as [|x l IH]; intros H; simpl; [reflexivity|].
  rewrite (H x (or_introl eq_refl)). apply IH. intros y Hy. apply H. right. exact Hy.
Qed.

(** X7: the activate promise always fulfils and claims the clients; every
    generation it keeps (the current static and dynamic ones and those
    outside the ["lumina-rag-"] namespace) holds exactly what it held, a
    generation it drops is gone, nothing is fetched; and activating again
    changes no cache. *)
Theorem activate_keeps_entries (w : World) :
  let '(outcome, w') := activate_listener w in
  outcome = Fulfilled tt /\
  clients_claimed w' = true /\
  (forall name,
     name = STATIC_CACHE_NAME \/ name = DYNAMIC_CACHE_NAME \/
     startsWith name "lumina-rag-" = false ->
     CacheStorage_get (caches w') name = CacheStorage_get (caches w) name) /\
  (forall name,
     name <> STATIC_CACHE_NAME -> name <> DYNAMIC_CACHE_NAME ->
     startsWith name "lumina-rag-" = true ->
     CacheStorage_get (caches w') name = None) /\
  fetched w' = fetched w /\
  caches (snd (activate_listener w')) = caches w'.
Proof.
  destruct (activate_run w) as (w' & -> & Hc & Hf & _ & Hcl).
  split; [reflexivity|]. split; [exact Hcl|]. split; [|split; [|split; [exact Hf|]]].
  - intros name Hkeep. rewrite Hc. apply CacheStorage_get_delete_all.
    rewrite filter_In. intros [_ Hst].
    apply ServiceWorkerProps.stale_false in Hkeep. congruence.
  - intros name H1 H2 H3. rewrite Hc.
    destruct (CacheStorage_get (fold_left _ _ _) name) as [c|] eqn:Eg; [|reflexivity].
    exfalso.
    assert (Hin : In name (CacheStorage_keys
                    (fold_left CacheStorage_delete
                       (List.filter stale (CacheStorage_keys (caches w))) (caches w)))).
    { clear -Eg. revert Eg. generalize (fold_left CacheStorage_delete
        (List.filter stale (CacheStorage_keys (caches w))) (caches w)) as cs.
      induction cs as [|[n c0] cs IH]; simpl; [discriminate|].
      destruct (String.eqb_spec n name) as [->|_]; [left; reflexivity|].
      intros H. right. apply IH. exact H. }
    apply ServiceWorkerProps.keys_delete_all in Hin as [Hin Hnot].
    apply Hnot. apply filter_In. split; [exact Hin|].
    unfold stale. rewrite H3.
    apply ServiceWorkerProps.str_neq_true in H1, H2. rewrite H1, H2. reflexivity.
  - destruct (activate_run w') as (w'' & -> & Hc' & _). cbn [snd]. rewrite Hc'.
    rewrite filter_none; [reflexivity|].
    intros name Hin. rewrite Hc in Hin.
    apply ServiceWorkerProps.keys_delete_all in Hin as [Hin Hnot].
    destruct (stale name) eqn:Est; [|reflexivity].
    exfalso. apply Hnot. apply filter_In. auto.
Qed.

(** ** Control messages: the list that can be fetched *)



(** ** Install, activate, then offline *)




End ServiceWorkerMore.

(** * More on the install-flow controller *)
Module PWAInstallMore.
Import PWAInstall.

(** What the browser events keep true of the capture. *)
Lemma deliver_capture ev s :
  canInstall s = (match deferredPrompt s with Some _ => true | None => false end) ->
  (forall e, deferredPrompt s = Some e -> has_prompt e = true) ->
  let s' := fst (deliver ev s) in
  canInstall s' = (match deferredPrompt s' with Some _ => true | None => false end) /\
  (forall e, deferredPrompt s' = Some e -> has_prompt e = true) /\
  isPrompting s' = isPrompting s.
Proof.
  intros Hc Hp. destruct ev as [e| |signals]; cbn.
  - unfold handleBeforeInstallPrompt. destruct (has_prompt e) eqn:He; cbn.
    + repeat split. intros e' H. injection H as <-. exact He.
    + auto.
  - repeat split. discriminate.
  - auto.
Qed.

Lemma deliver_all_capture evs s :
  canInstall s = (match deferredPrompt s with Some _ => true | None => false end) ->
  (forall e, deferredPrompt s = Some e -> has_prompt e = true) ->
  let s' := fst (deliver_all evs s) in
  canInstall s' = (match deferredPrompt s' with Some _ => true | None => false end) /\
  (forall e, deferredPrompt s' = Some e -> has_prompt e = true) /\
  isPrompting s' = isPrompting s.
Proof.
  revert s. induction evs as [|ev evs IH]; intros s Hc Hp; cbn [deliver_all].
  - cbn. auto.
  - destruct (deliver_capture ev s Hc Hp) as (Hc1 & Hp1 & Hi1).
    destruct (deliver ev s) as [s1 eff1]. cbn [fst] in *.
    destruct (IH s1 Hc1 Hp1) as (Hc2 & Hp2 & Hi2).
    destruct (deliver_all evs s1) as [s2 eff2]. cbn [fst] in *.
    repeat split; auto. congruence.
Qed.

Lemma promptInstall_capture during run s :
  canInstall s = (match deferredPrompt s with Some _ => true | None => false end) ->
  (forall e, deferredPrompt s = Some e -> has_prompt e = true) ->
  isPrompting s = false ->
  let s' := fst (promptInstall_during during run s) in
  canInstall s' = (match deferredPrompt s' with Some _ => true | None => false end) /\
  (forall e, deferredPrompt s' = Some e -> has_prompt e = true) /\
  isPrompting s' = false.
Proof.
  intros Hc Hp Hi. unfold promptInstall_during, promptInstall_closure.
  destruct (deferredPrompt s) as [e|] eqn:Hd.
  - destruct (deliver_all during (setIsPrompting true s)) as [s1 eff1].
    destruct run as [err|err|[|] platform]; cbn; repeat split; discriminate.
  - cbn. rewrite Hd. auto.
Qed.

(** X10: from mount on, through any sequence of browser events and completed
    [promptInstall] calls, [canInstall] is true exactly when a capture is
    held, a held capture always has a [prompt] method, and [isPrompting] is
    false between calls. *)
Theorem capture_invariant (env : Signals) (actions : list Action) :
  let s := fst (perform_all actions (mount env)) in
  (canInstall s = true <-> exists e, deferredPrompt s = Some e) /\
  (forall e, deferredPrompt s = Some e -> has_prompt e = true) /\
  isPrompting s = false.
Proof.
  assert (Hgen : forall acts s0,
            canInstall s0 = (match deferredPrompt s0 with Some _ => true | None => false end) ->
            (forall e, deferredPrompt s0 = Some e -> has_prompt e = true) ->
            isPrompting s0 = false ->
            let s := fst (perform_all acts s0) in
            canInstall s = (match deferredPrompt s with Some _ => true | None => false end) /\
            (forall e, deferredPrompt s = Some e -> has_prompt e = true) /\
            isPrompting s = false).
  { induction acts as [|a acts IH]; intros s0 Hc Hp Hi; cbn [perform_all].
    - cbn. auto.
    - assert (H1 : let s1 := fst (perform a s0) in
                   canInstall s1 = (match deferredPrompt s1 with Some _ => true | None => false end) /\
                   (forall e, deferredPrompt s1 = Some e -> has_prompt e = true) /\
                   isPrompting s1 = false).
      { destruct a as [ev|during run]; cbn [perform].
        - destruct (deliver_capture ev s0 Hc Hp) as (? & ? & ?).
          repeat split; auto. congruence.
        - apply promptInstall_capture; assumption. }
      destruct (perform a s0) as [s1 eff1]. cbn [fst] in H1.
      destruct H1 as (Hc1 & Hp1 & Hi1).
      specialize (IH s1 Hc1 Hp1 Hi1).
      destruct (perform_all acts s1) as [s2 eff2]. exact IH. }
  destruct (Hgen actions (mount env)) as (Hc & Hp & Hi);
    [reflexivity | discriminate | reflexivity |].
  cbn zeta. split; [|split; assumption].
  rewrite Hc. destruct (deferredPrompt _) as [e|]; split; eauto.
  - discriminate.
  - intros [e H]. discriminate H.
Qed.




(** X12: left to its timer, the hook shows at time [t] the signals as they
    were at the last multiple of 1000 ms, so the flag also falls: once no
    signal holds from [t0] on, [isInstalled] is false at every time from
    [t0 + POLL_INTERVAL] on, whatever it was before. *)
Theorem installed_flag_follows_signals (env : nat -> Signals) (t0 t : nat) :
  isInstalled (clock env t) = isStandalone (env (t / POLL_INTERVAL * POLL_INTERVAL)) /\
  ((forall u, t0 <= u -> isStandalone (env u) = false) ->
   t0 + POLL_INTERVAL <= t ->
   isInstalled (clock env t) = false).
Proof.
  split; [apply PWAInstallProps.clock_isInstalled|].
  intros Hoff Ht. rewrite PWAInstallProps.clock_isInstalled. apply Hoff.
  unfold POLL_INTERVAL in *.
  pose proof (Nat.div_mod_eq t 1000) as H1.
  pose proof (Nat.mod_upper_bound t 1000 ltac:(lia)) as H2.
  lia.
Qed.

Lemma installed_flag_follows_signals_witness :
  isInstalled (clock Scenarios.standalone_until_300 0) = true /\
  isInstalled (clock Scenarios.standalone_until_300 1300) = false.
Proof.
  split; [reflexivity|].
  apply (proj2 (installed_flag_follows_signals Scenarios.standalone_until_300 300 1300)).
  - intros u Hu. unfold Scenarios.standalone_until_300.
    destruct (Nat.ltb_spec u 300) as [Hlt|_]; [lia | reflexivity].
  - unfold POLL_INTERVAL. lia.
Defined.

(** X13: the stand-alone [promptPWAInstall] never rejects; given an event it
    calls [prompt()] on it and writes the very console lines of the hook's
    [promptInstall] (it keeps no state); given none it only warns. *)
Theorem promptPWAInstall_like_hook
    (event : option BeforeInstallPromptEvent) (run : PromptRun) (s : State) :
  fst (ServiceWorkerUtils.promptPWAInstall event run) = ServiceWorker.Fulfilled tt /\
  match event with
  | Some e =>
      snd (ServiceWorkerUtils.promptPWAInstall event run) =
      snd (promptInstall_closure (Some e) [] run s)
  | None =>
      snd (ServiceWorkerUtils.promptPWAInstall event run) =
        [warn "[PWA Install] Install prompt event not available"]
  end.
Proof.
  destruct event as [e|]; [|split; reflexivity].
  destruct run as [err|err|[|] platform]; split; reflexivity.
Qed.

End PWAInstallMore.

(** * More on the file list *)
Module DataManagementMore.
Import DataManagement.

Lemma filter_all {A} (f : A -> bool) (l : list A) :
  (forall x, In x l -> f x = true) -> List.filter f l = l.
Proof.
  induction l as [|x l IH]; intros H; simpl; [reflexivity|].
  rewrite (H x (or_introl eq_refl)). f_equal. apply IH. intros y Hy. apply H. right. exact Hy.
Qed.

Lemma State_eta s :
  {| files := files s; isGeneratingData := isGeneratingData s;
     isIndexing := isIndexing s; ragStatus := ragStatus s |} = s.
Proof. destruct s. reflexivity. Qed.

Lemma filter_sublist {A} (f : A -> bool) (l : list A) : sublist (List.filter f l) l.
Proof.
  induction l as [|x l IH]; simpl; [constructor|].
  destruct (f x); constructor; exact IH.
Qed.

(** X14: [removeFile] drops every entry with the given id, and only those:
    the other entries stay, in their order; with no such entry the state is
    unchanged; removing twice is removing once; the other cells of the state
    are not touched. *)
Theorem removeFile_removes_exactly (i : FileId) (s : State) :
  let s' := removeFile i s in
  (forall f, In f (files s') <-> In f (files s) /\ id f <> i) /\
  sublist (files s') (files s) /\
  ((forall f, In f (files s) -> id f <> i) -> s' = s) /\
  removeFile i s' = s' /\
  isGeneratingData s' = isGeneratingData s /\
  isIndexing s' = isIndexing s /\
  ragStatus s' = ragStatus s.
Proof.
  cbn. split; [|split; [|split; [|split]]].
  - intros f. rewrite filter_In, negb_true_iff, N.eqb_neq. tauto.
  - apply filter_sublist.
  - intros Hnone. unfold removeFile, setFilesState. rewrite filter_all.
    + apply State_eta.
    + intros f Hf. apply negb_true_iff, N.eqb_neq, Hnone, Hf.
  - unfold removeFile, setFilesState. cbn. f_equal. apply filter_all.
    intros f Hf. apply filter_In in Hf as [_ Hf]. exact Hf.
  - auto.
Qed.

(** X15: an upload whose id is not yet in the list is undone by
    [removeFile] with that id: the state is the one before the upload. *)
Theorem upload_then_remove (fileId : FileId) (file : File) (s : State) :
  (forall f, In f (files s) -> id f <> fileId) ->
  removeFile fileId (fst (handleFileUpload fileId file s)) = s.
Proof.
  intros Hfresh. unfold handleFileUpload.
  destruct (file_text file); cbn [fst]; unfold removeFile, addFile, setFilesState; cbn;
    rewrite List.filter_app; cbn; rewrite N.eqb_refl; cbn; rewrite app_nil_r;
    (rewrite filter_all;
     [apply State_eta | intros f Hf; apply negb_true_iff, N.eqb_neq, Hfresh, Hf]).
Qed.

Lemma upload_then_remove_witness :
  let s := fst (handleFileUpload 3%N Scenarios.notes_txt initial) in
  removeFile 7%N (fst (handleFileUpload 7%N Scenarios.broken_txt s)) = s.
Proof.
  apply (upload_then_remove 7%N Scenarios.broken_txt
           (fst (handleFileUpload 3%N Scenarios.notes_txt initial))).
  intros f [<-|[]]. discriminate.
Defined.

(** When the draw repeats an id of the list, removing the new entry takes
    the older one with it. *)
Example remove_with_repeated_id :
  let s := fst (handleFileUpload 3%N Scenarios.notes_txt initial) in
  files (removeFile 3%N (fst (handleFileUpload 3%N Scenarios.broken_txt s))) = [].
Proof. reflexivity. Qed.

Lemma handleFileUpload_entry fileId file s :
  handleFileUpload fileId file s =
  (addFile (entry_of (fileId, file)) s,
   match file_text file with
   | Some _ => []
   | None => [console_error "Failed to read file:"]
   end).
Proof.
  unfold handleFileUpload, entry_of. cbn [fst snd].
  destruct (file_text file); reflexivity.
Qed.

(** What a run of uploads leaves behind. *)
Lemma upload_all_run (uploads : list (FileId * File)) (s : State) :
  let '(s', effects) := upload_all uploads s in
  files s' = files s ++ map entry_of uploads /\
  length effects =
    length (List.filter (fun u => match file_text (snd u) with
                                  | None => true
                                  | Some _ => false
                                  end) uploads) /\
  isGeneratingData s' = isGeneratingData s /\
  isIndexing s' = isIndexing s /\
  ragStatus s' = ragStatus s.
Proof.
  revert s. induction uploads as [|[fileId file] uploads IH]; intros s.
  - cbn. rewrite app_nil_r. auto.
  - cbn [upload_all]. rewrite handleFileUpload_entry.
    specialize (IH (addFile (entry_of (fileId, file)) s)).
    destruct (upload_all uploads _) as [s2 eff2].
    destruct IH as (Hf & Hl & Hg & Hi & Hr).
    rewrite Hf, Hg, Hi, Hr. cbn [addFile setFilesState files isGeneratingData isIndexing
      ragStatus List.map List.filter snd].
    rewrite <- app_assoc. cbn [app].
    split; [reflexivity|]. split; [|auto].
    rewrite length_app, Hl. destruct (file_text file); reflexivity.
Qed.

(** X16: any number of uploads, whether their reads succeed or reject, add
    one entry each at the end of the list, in the order in which they
    settle; exactly the rejected reads write a console error; the other
    cells of the state are not touched. *)
Theorem uploads_append_in_order (uploads : list (FileId * File)) (s : State) :
  let '(s', effects) := upload_all uploads s in
  files s' = files s ++ map entry_of uploads /\
  length effects =
    length (List.filter (fun u => match file_text (snd u) with
                                  | None => true
                                  | Some _ => false
                                  end) uploads) /\
  isGeneratingData s' = isGeneratingData s /\
  isIndexing s' = isIndexing s /\
  ragStatus s' = ragStatus s.
Proof. exact (upload_all_run uploads s). Qed.

(** X17: with a non-empty list, [indexDocuments] hands the callback exactly
    the current entries, once; it ends with [isIndexing] false and the
    status ["Knowledge Base Ready"] when the callback resolves (or is
    absent, after the 1500 ms wait) and ["Indexing Failed"] when it rejects;
    the file list is not touched.  In particular this holds after uploads. *)
Theorem indexDocuments_settles
    (ragIndexFunction : option RagIndexFunction) (uploads : list (FileId * File))
    (s : State) :
  files s ++ map entry_of uploads <> [] ->
  let s1 := fst (upload_all uploads s) in
  let '(s', effects) := indexDocuments ragIndexFunction s1 in
  files s' = files s ++ map entry_of uploads /\
  isIndexing s' = false /\
  isGeneratingData s' = isGeneratingData s /\
  match ragIndexFunction with
  | None =>
      ragStatus s' = "Knowledge Base Ready" /\ effects = [setTimeout 1500]
  | Some f =>
      if f (files s ++ map entry_of uploads)
      then ragStatus s' = "Knowledge Base Ready" /\
           effects = [call_ragIndexFunction (files s ++ map entry_of uploads)]
      else ragStatus s' = "Indexing Failed" /\
           effects = [call_ragIndexFunction (files s ++ map entry_of uploads);
                      console_error "Indexing failed:"]
  end.
Proof.
  intros Hne. pose proof (upload_all_run uploads s) as Hu.
  destruct (upload_all uploads s) as [s1 eff1]. cbn [fst].
  destruct Hu as (Hf & _ & Hg & _ & _).
  unfold indexDocuments, indexDocuments_closure. rewrite Hf.
  destruct (files s ++ map entry_of uploads) as [|f0 fs] eqn:E; [congruence|].
  cbn [length Nat.eqb].
  destruct ragIndexFunction as [f|]; [destruct (f (f0 :: fs))|]; cbn; auto.
Qed.

Lemma indexDocuments_settles_witness :
  let s1 := fst (upload_all [(3%N, Scenarios.notes_txt)] initial) in
  let '(s', effects) := indexDocuments (Some (fun _ => false)) s1 in
  files s' = files initial ++ map entry_of [(3%N, Scenarios.notes_txt)] /\
  isIndexing s' = false /\
  isGeneratingData s' = isGeneratingData initial /\
  (if (fun _ : list FileItem => false)
        (files initial ++ map entry_of [(3%N, Scenarios.notes_txt)])
   then ragStatus s' = "Knowledge Base Ready" /\
        effects = [call_ragIndexFunction
                     (files initial ++ map entry_of [(3%N, Scenarios.notes_txt)])]
   else ragStatus s' = "Indexing Failed" /\
        effects = [call_ragIndexFunction
                     (files initial ++ map entry_of [(3%N, Scenarios.notes_txt)]);
                   console_error "Indexing failed:"]).
Proof.
  apply (indexDocuments_settles (Some (fun _ => false)) [(3%N, Scenarios.notes_txt)]
           initial).
  discriminate.
Defined.

End DataManagementMore.

(** * The registration utilities *)
Module ServiceWorkerUtilsProps.
Import ServiceWorkerUtils.


Example getServiceWorkerState_waiting :
  fst (getServiceWorkerState Scenarios.navigator_registered) =
  Fulfilled {| isSupported := true; isRegistered := true; updateAvailable := true;
               registration := Some Scenarios.registration_waiting |}.
Proof. reflexivity. Qed.

(** X19: [registerServiceWorker] never rejects, so the handler that
    [main.tsx] attaches to it never runs: in a production build [main] does
    exactly what [registerServiceWorker] does and writes no ["[Main]"] line,
    and outside production it does nothing.  Without service-worker support
    only the warning is written and [register] is not called; with support
    ["/sw.js"] is registered once with scope ["/"], and the two listeners
    are added exactly when the registration succeeds. *)
Theorem registerServiceWorker_never_rejects (navigator : Navigator) (PROD : bool) :
  fst (registerServiceWorker navigator) = Fulfilled tt /\
  main PROD navigator =
    (if PROD then registerServiceWorker navigator else (Fulfilled tt, [])) /\
  (forall err,
     ~ In (error "[Main] Failed to register service worker:" err)
          (snd (main PROD navigator))) /\
  match navigator with
  | None =>
      snd (registerServiceWorker navigator) =
        [warn "[Service Worker] Service workers are not supported in this browser"]
  | Some container =>
      match register container "/sw.js" "/" with
      | ServiceWorker.Fulfilled reg =>
          snd (registerServiceWorker navigator) =
            [ call_register "/sw.js" "/";
              log_with "[Service Worker] Registered successfully:" (scope reg);
              addEventListener "registration" "updatefound";
              addEventListener "navigator.serviceWorker" "controllerchange" ]
      | ServiceWorker.Rejected err =>
          snd (registerServiceWorker navigator) =
            [ call_register "/sw.js" "/";
              error "[Service Worker] Registration failed:" err ]
      end
  end.
Proof.
  assert (Hcases :
    match navigator with
    | None =>
        registerServiceWorker navigator =
          (Fulfilled tt,
           [warn "[Service Worker] Service workers are not supported in this browser"])
    | Some container =>
        match register container "/sw.js" "/" with
        | ServiceWorker.Fulfilled reg =>
            registerServiceWorker navigator =
              (Fulfilled tt,
               [ call_register "/sw.js" "/";
                 log_with "[Service Worker] Registered successfully:" (scope reg);
                 addEventListener "registration" "updatefound";
                 addEventListener "navigator.serviceWorker" "controllerchange" ])
        | ServiceWorker.Rejected err =>
            registerServiceWorker navigator =
              (Fulfilled tt,
               [ call_register "/sw.js" "/";
                 error "[Service Worker] Registration failed:" err ])
        end
    end).
  { destruct navigator as [container|]; [|reflexivity].
    unfold registerServiceWorker. cbn.
    destruct (register container "/sw.js" "/"); reflexivity. }
  assert (Hfst : fst (registerServiceWorker navigator) = Fulfilled tt).
  { destruct navigator as [container|]; [|rewrite Hcases; reflexivity].
    destruct (register container "/sw.js" "/"); rewrite Hcases; reflexivity. }
  assert (Hmain : main PROD navigator =
                  if PROD then registerServiceWorker navigator else (Fulfilled tt, [])).
  { unfold main, try_catch, ret. destruct PROD; [|reflexivity].
    destruct (registerServiceWorker navigator) as [[[]|r] eff]; [reflexivity|].
    discriminate Hfst. }
  split; [exact Hfst|]. split; [exact Hmain|]. split.
  - intros err. rewrite Hmain. destruct PROD; [|intros []].
    destruct navigator as [container|].
    + destruct (register container "/sw.js" "/"); rewrite Hcases; cbn;
        intuition discriminate.
    + rewrite Hcases. cbn. intuition discriminate.
  - destruct navigator as [container|]; [|rewrite Hcases; reflexivity].
    destruct (register container "/sw.js" "/"); rewrite Hcases; reflexivity.
Qed.


End ServiceWorkerUtilsProps.
